(** * torchtrainer_experimenter: the multi-dataset trainer, verified

    A shallow embedding of
      - [src/experimenters/multiple_datasets/train.py]
        ([MultiModuleRunner.validate_one_epoch], [MultiTrainer.setup_dataset],
         [MultiTrainer.setup_training], [MultiTrainer.fit]),
      - [src/experimenters/multiple_datasets/dataset.py] ([get_datasets]),
      - [src/dataset.py] ([create_transform.generate_multiplicative]),
    and the properties of the specification that concern them.

    Python integers are [Z]; Python exceptions are an error monad that also
    records, in order, the calls with an outside effect that completed.
    Collaborators that are not part of the repository ([train_one_epoch],
    the logger, [torch.save], the data files) take their outcome from an
    environment record. *)

From Stdlib Require Import ZArith List String Ascii Bool Lia QArith Qround Lqa.
From Stdlib Require Import Qpower.
From Stdlib Require Import DecimalString DecimalZ.
Import ListNotations.
Open Scope string_scope.
Open Scope list_scope.
Open Scope Z_scope.

(** ** Python exceptions and the effect monad *)

Module Py.

(** The exceptions the modelled code can meet.  [KeyboardInterrupt] derives
    from [BaseException] only; every other one derives from [Exception]. *)
Inductive exn : Type :=
| KeyboardInterrupt
| StopIteration
| ZeroDivisionError
| ValueError (msg : string)
| UnboundLocalError (var : string)
| OtherException (msg : string).

Definition is_Exception (x : exn) : bool :=
  match x with
  | KeyboardInterrupt => false
  | _ => true
  end.

Definition is_KeyboardInterrupt (x : exn) : bool :=
  match x with
  | KeyboardInterrupt => true
  | _ => false
  end.

Inductive result (A : Type) : Type :=
| Ret (a : A)
| Raise (x : exn).
Arguments Ret {A} a.
Arguments Raise {A} x.

Section Monad.
Variable E : Type.

(** A computation yields the effects it performed, in order, and either a
    value or the exception that stopped it. *)
Definition M (A : Type) : Type := (list E * result A)%type.

Definition ret {A} (a : A) : M A := ([], Ret a).
Definition raise {A} (x : exn) : M A := ([], Raise x).
Definition emit (e : E) : M unit := ([e], Ret tt).

Definition bind {A B} (m : M A) (k : A -> M B) : M B :=
  match m with
  | (t1, Ret a) => let (t2, r) := k a in (t1 ++ t2, r)
  | (t1, Raise x) => (t1, Raise x)
  end.

(** [if c: m] *)
Definition when (c : bool) (m : M unit) : M unit :=
  if c then m else ret tt.

(** [try: m  except <class> as e: handler(e)], the class given by [catches] *)
Definition try_except {A} (catches : exn -> bool) (m : M A)
           (handler : exn -> M A) : M A :=
  match m with
  | (t1, Raise x) =>
      if catches x then let (t2, r) := handler x in (t1 ++ t2, r)
      else (t1, Raise x)
  | ok => ok
  end.

Definition trace {A} (m : M A) : list E := fst m.
Definition outcome {A} (m : M A) : result A := snd m.
End Monad.

Arguments ret {E A} a.
Arguments raise {E A} x.
Arguments emit {E} e.
Arguments bind {E A B} m k.
Arguments when {E} c m.
Arguments try_except {E A} catches m handler.
Arguments trace {E A} m.
Arguments outcome {E A} m.

(** Python's [a % b] on integers: the sign of the divisor, an error at 0. *)
Definition py_mod {E} (a b : Z) : M E Z :=
  if b =? 0 then raise ZeroDivisionError else ret (a mod b).

(** [range(n)] *)
Definition range (n : Z) : list Z := map Z.of_nat (seq 0 (Z.to_nat n)).

End Py.

Export Py.

Declare Scope py_scope.
Delimit Scope py_scope with py.
Notation "x <- m ;; k" := (bind m (fun x => k))
  (at level 61, m at next level, right associativity) : py_scope.
Notation "m ;;; k" := (bind m (fun _ => k))
  (at level 61, right associativity) : py_scope.
Open Scope py_scope.

(** ** Metric values

    A logged metric is a Python float: a finite value, an infinity, or NaN.
    Only comparisons are made on it, so finite values are rationals. *)

Module Metric.

Inductive fval : Type :=
| NaN
| NegInf
| Fin (q : Q)
| PosInf.

(** [operator.gt] on floats: NaN compares false with everything. *)
Definition operator_gt (a b : fval) : bool :=
  match a, b with
  | NaN, _ | _, NaN => false
  | NegInf, _ => false
  | _, PosInf => false
  | Fin p, Fin q => negb (Qle_bool p q)
  | Fin _, NegInf => true
  | PosInf, _ => true
  end.

(** [operator.lt] on floats. *)
Definition operator_lt (a b : fval) : bool := operator_gt b a.

End Metric.

Export Metric.

(** ** IEEE 754 binary64 arithmetic, on the rationals *)

Module Float64.

(** Every finite double is a rational, and an operation of float64
    arithmetic is the exact operation followed by [round], the rounding to
    the nearest value of 53 significant bits, ties to even.  The exponent
    is not bounded: the values met here are far from overflow and from the
    subnormal numbers. *)

(** The binade of a positive rational: the [e] with [2^e <= x < 2^(e+1)]. *)
Definition binade (x : Q) : Z :=
  let e0 := Z.log2 (Qnum x) - Z.log2 (Zpos (Qden x)) in
  if Qle_bool (2 ^ e0) x then e0 else e0 - 1.

(** Rounding to the nearest integer, ties to even. *)
Definition round_half_even (x : Q) : Z :=
  let f := Qfloor x in
  match (x - inject_Z f ?= 1 # 2)%Q with
  | Lt => f
  | Gt => f + 1
  | Eq => if Z.even f then f else f + 1
  end.

(** Rounding of a positive rational to 53 significant bits. *)
Definition round_pos (x : Q) : Q :=
  let s := 52 - binade x in
  (inject_Z (round_half_even (x * 2 ^ s)) * 2 ^ (- s))%Q.

Definition round (x : Q) : Q :=
  match Qnum x with
  | 0 => 0%Q
  | Zpos _ => round_pos x
  | Zneg _ => (- round_pos (- x))%Q
  end.

End Float64.

(** ** src/dataset.py: the multiplicative augmentation *)

Module Dataset.

(** An 8-bit image, as the sequence of its pixel values. *)
Definition image : Type := list Z.

(** A cast to 8 bits that drops the fractional part (rounding toward
    zero) and keeps the integer modulo 256; used for [.to(torch.uint8)] in
    [predict_and_save_val_imgs], on values inside the range. *)
Definition astype_uint8 (x : Q) : Z :=
  Z.quot (Qnum x) (Zpos (Qden x)) mod 256.

(** [x.astype(np.uint8)] of a float64 [x]: the fractional part is dropped
    (rounding toward zero).  When the integer is not in 0..255 the result
    depends on the platform, [platform x]. *)
Definition astype_np_uint8 (platform : Q -> Z) (x : Q) : Z :=
  let t := Z.quot (Qnum x) (Zpos (Qden x)) in
  if (0 <=? t) && (t <=? 255) then t else platform x.

(** [generate_multiplicative(mult_val_limit)] returns [custom]; [rand] is the
    value of [np.random.rand()], a double of the interval [0, 1), and the
    limits are doubles.
    [mult_val = rand*(limit[1]-limit[0]) + limit[0]], in float64;
    the result is [(img*mult_val).astype(np.uint8)], the 8-bit image being
    converted to float64 for the product. *)
Definition mult_val (mult_val_limit : Q * Q) (rand : Q) : Q :=
  Float64.round
    (Float64.round
       (rand * Float64.round (snd mult_val_limit - fst mult_val_limit))
     + fst mult_val_limit).

Definition generate_multiplicative (platform : Q -> Z)
           (mult_val_limit : Q * Q) (rand : Q) (img : image) : image :=
  map (fun p => astype_np_uint8 platform
                  (Float64.round (inject_Z p * mult_val mult_val_limit rand)))
      img.

(** [aug.Lambda(name='multiply', image=generate_multiplicative((0.7, 1.)))];
    the literal [0.7] is the double nearest to 7/10. *)
Definition multiply (platform : Q -> Z) : Q -> image -> image :=
  generate_multiplicative platform (Float64.round (7 # 10), 1)%Q.


End Dataset.

(** ** experimenters/multiple_datasets/dataset.py *)

Module MultiDataset.

(** [pathlib.Path], as its components. *)
Definition Path : Type := list string.
Definition Path_of (s : string) : Path := [s].
Definition join (p : Path) (name : string) : Path := p ++ [name].

Record ValidTransforms : Type := mkValidTransforms {
  resize_size : option (Z * Z);
  resize_target : bool
}.

(** [ValidTransforms(resize_size=size)]; [resize_target] defaults to True. *)
Definition ValidTransforms_new (size : Z * Z) : ValidTransforms :=
  mkValidTransforms (Some size) true.

(** A dataset object, as the constructor call that made it. *)
Inductive Dataset : Type :=
| VessMAP (root : Path) (keepdim : bool) (transforms : ValidTransforms)
| DRIVE (root : Path) (split : string) (channels : string) (keepdim : bool)
        (ignore_index : Z) (transforms : ValidTransforms).

Definition dataset_root (d : Dataset) : Path :=
  match d with
  | VessMAP root _ _ => root
  | DRIVE root _ _ _ _ _ => root
  end.

Definition get_datasets (datasets_root : string)
  : Dataset * list (string * Dataset) * Z :=
  let ignore_index := 2 in
  let root_vesshape := join (Path_of datasets_root) "VessShape" in
  let root_drive := join (Path_of datasets_root) "DRIVE" in
  let root_vessmap := join (Path_of datasets_root) "VessMAP" in
  let transforms_256 := ValidTransforms_new (256, 256) in
  let transforms_512 := ValidTransforms_new (512, 512) in
  let ds_train_vessshape := VessMAP root_vessmap true transforms_256 in
  let ds_valid_vessshape := VessMAP root_vessmap true transforms_256 in
  let ds_valid_drive :=
    DRIVE root_drive "test" "gray" true ignore_index transforms_512 in
  let ds_valid_vessmap := VessMAP root_vessmap true transforms_256 in
  let ds_valids := [ ("VessShape", ds_valid_vessshape);
                     ("DRIVE", ds_valid_drive);
                     ("VessMAP", ds_valid_vessmap) ] in
  (ds_train_vessshape, ds_valids, ignore_index).

(** Lookup in a dict kept in insertion order. *)
Fixpoint dict_get {A} (d : list (string * A)) (k : string) : option A :=
  match d with
  | [] => None
  | (k', v) :: r => if String.eqb k k' then Some v else dict_get r k
  end.

End MultiDataset.

(** ** train.py: the epoch runner *)

Module Runner.

(** A batch, as the indices of the samples stacked in it. *)
Definition batch : Type := list nat.

(** [torch.utils.data.DataLoader(ds, batch_size=..., shuffle=...)] over a
    dataset of [dl_len] samples. *)
Record DataLoader : Type := mkDataLoader {
  dl_len : nat;
  batch_size : Z;
  shuffle : bool
}.

Fixpoint chunks (fuel : nat) (n : nat) (l : list nat) : list batch :=
  match fuel, l with
  | O, _ | _, [] => []
  | S fuel', _ => firstn n l :: chunks fuel' n (skipn n l)
  end.

(** [iter(dl)]: the batches of one pass.  A loader that does not shuffle
    goes through the samples in their order in the dataset; one that does
    first applies the permutation [perm] drawn for the pass. *)
Definition iter_loader (perm : list nat -> list nat) (dl : DataLoader)
  : list batch :=
  let order := seq 0 (dl_len dl) in
  let order := if shuffle dl then perm order else order in
  chunks (dl_len dl) (Z.to_nat (batch_size dl)) order.

(** A performance function, as the names of the results it returns:
    [WrapDict(conf_metrics, names)]. *)
Definition perf_func : Type := list string.

Inductive effect : Type :=
| ProfilerStart (name : string)
| Forward (ds_name : string) (batch_idx : Z) (b : batch)
    (* scores = self.model(imgs); loss = self.loss_func(scores, targets) *)
| LoggerLog (epoch batch_idx : Z) (name : string) (weight : Z)
| ProfilerStep.

Fixpoint for_each {E A} (l : list A) (body : A -> M E unit) : M E unit :=
  match l with
  | [] => ret tt
  | a :: r => body a ;;; for_each r body
  end.

(** Lines 55-75: [for batch_idx in pbar: ...] over one loader; [dl_iter] is
    what is left of the iterator, [next(dl_iter)] raises at its end. *)
Fixpoint validate_batches (perf_funcs : list perf_func) (epoch : Z)
         (ds_name : string) (pbar : list Z) (dl_iter : list batch)
  : M effect unit :=
  match pbar with
  | [] => ret tt
  | batch_idx :: pbar' =>
      match dl_iter with
      | [] => raise StopIteration
      | imgs :: dl_iter' =>
          let n := Z.of_nat (List.length imgs) in
          emit (Forward ds_name batch_idx imgs) ;;;
          emit (LoggerLog epoch batch_idx ("Val loss " ++ ds_name)%string n) ;;;
          for_each perf_funcs (fun pf =>
            for_each pf (fun name =>
              emit (LoggerLog epoch batch_idx
                              (name ++ " " ++ ds_name)%string n))) ;;;
          emit ProfilerStep ;;;
          validate_batches perf_funcs epoch ds_name pbar' dl_iter'
      end
  end.

(** [MultiModuleRunner.validate_one_epoch]; [dl_valid] is [self.dl_valid],
    the dict of the validation loaders, and [len(self.dl_valid)] its number
    of entries. *)
Definition validate_one_epoch (dl_valid : list (string * DataLoader))
           (perf_funcs : list perf_func) (epoch : Z) : M effect unit :=
  when (epoch =? 1) (emit (ProfilerStart "validation")) ;;;
  for_each dl_valid (fun '(ds_name, dl) =>
    let dl_iter := iter_loader (fun l => l) dl in
    let pbar := range (Z.of_nat (List.length dl_valid)) in
    validate_batches perf_funcs epoch ds_name pbar dl_iter).

(** The batches a pass gave to the model for the dataset [ds_name]. *)
Definition forwarded (ds_name : string) (t : list effect) : list batch :=
  flat_map (fun e => match e with
                     | Forward n _ b => if String.eqb n ds_name then [b] else []
                     | _ => []
                     end) t.

End Runner.

(** ** train.py: the trainer loop *)

Module Train.

Import MultiDataset Runner.

(** The options of the configuration object that the modelled code reads. *)
Record Args : Type := mkArgs {
  num_epochs : Z;
  validate_every : Z;
  patience : option Z;
  validation_metric : string;
  maximize_validation_metric : bool;
  log_wandb : bool;
  copy_model_every : Z;
  save_val_imgs : bool;
  profile : bool;
  optimizer : string;
  loss_function : string;
  dataset_path : string;
  bs_valid : Z
}.

Definition set_num_epochs (n : Z) (a : Args) : Args :=
  mkArgs n (validate_every a) (patience a) (validation_metric a)
         (maximize_validation_metric a) (log_wandb a) (copy_model_every a)
         (save_val_imgs a) (profile a) (optimizer a) (loss_function a)
         (dataset_path a) (bs_valid a).

(** The calls of one pass through the body of the loop of [fit], named after
    the source. *)
Inductive call : Type :=
| TrainOneEpoch            (* module_runner.train_one_epoch(epoch) *)
| ValidateOneEpoch         (* module_runner.validate_one_epoch(epoch) *)
| LoggerEndEpoch           (* logger.end_epoch(); logger.get_data() *)
| SetPostfix                (* pbar.set_postfix(last_metrics[tqdm_metrics]) *)
| ToCsvNan                 (* log.csv *)
| Savefig                    (* plots.png *)
| WandbLog                  (* wandb.log(last_metrics) *)
| StateDict                 (* module_runner.state_dict() *)
| SaveCheckpoint            (* torch.save(checkpoint, "checkpoint.pt") *)
| SaveCopy                  (* torch.save(checkpoint, "models/checkpoint_<epoch>.pt") *)
| PredictAndSaveValImgs
| SaveBestModel.           (* torch.save(checkpoint, "best_model.pt") *)

Inductive event : Type :=
| Print (msg : string)
| Call (epoch : Z) (c : call)      (* the call completed during [epoch] *)
| WandbFinish                      (* wandb.finish() *)
| WriteConfig.                     (* config.yaml, with timestamp_end *)

(** What the collaborators do in a run: whether a call of the loop body
    raises (and what), and the value logged for the validation metric. *)
Record Env : Type := mkEnv {
  raises : Z -> call -> option exn;
  val_metric : Z -> fval
}.

(** A call to a collaborator: it raises, or completes and is recorded. *)
Definition do_call (env : Env) (epoch : Z) (c : call) : M event unit :=
  match raises env epoch c with
  | Some x => raise x
  | None => emit (Call epoch c)
  end.

(** [compare = operator.gt if maximize else operator.lt] *)
Definition compare (args : Args) : fval -> fval -> bool :=
  if maximize_validation_metric args then operator_gt else operator_lt.

(** [best_val_metric = -torch.inf if maximize else torch.inf] *)
Definition initial_best (args : Args) : fval :=
  if maximize_validation_metric args then NegInf else PosInf.

Record LoopState : Type := mkLoopState {
  best_val_metric : fval;
  epochs_without_improvement : Z
}.

Definition initial_state (args : Args) : LoopState :=
  mkLoopState (initial_best args) 0.

Inductive control : Type :=
| Continue (st : LoopState)
| Break.

(** [validate = epoch==0 or epoch==args.num_epochs-1
               or epoch%args.validate_every==0] *)
Definition should_validate (args : Args) (epoch : Z) : M event bool :=
  if epoch =? 0 then ret true
  else if epoch =? num_epochs args - 1 then ret true
  else r <- py_mod epoch (validate_every args) ;; ret (r =? 0).

(** [args.copy_model_every and epoch%args.copy_model_every==0] *)
Definition should_copy (args : Args) (epoch : Z) : bool :=
  if copy_model_every args =? 0 then false
  else epoch mod copy_model_every args =? 0.

(** Lines 313-323: the check for model improvement of a validated epoch. *)
Definition check_improvement (args : Args) (env : Env) (epoch : Z)
           (st : LoopState) : M event control :=
  let v := val_metric env epoch in
  if compare args v (best_val_metric st) then
    do_call env epoch SaveBestModel ;;;
    ret (Continue (mkLoopState v 0))
  else
    let n := epochs_without_improvement st + 1 in
    match patience args with
    | Some p =>
        if p <? n then ret Break
        else ret (Continue (mkLoopState (best_val_metric st) n))
    | None => ret (Continue (mkLoopState (best_val_metric st) n))
    end.

(** Lines 275-323: the body of the loop, for one value of [epoch]. *)
Definition epoch_body (args : Args) (env : Env) (epoch : Z)
           (st : LoopState) : M event control :=
  do_call env epoch TrainOneEpoch ;;;
  validate <- should_validate args epoch ;;
  when validate (do_call env epoch ValidateOneEpoch) ;;;
  do_call env epoch LoggerEndEpoch ;;;
  do_call env epoch SetPostfix ;;;
  do_call env epoch ToCsvNan ;;;
  do_call env epoch Savefig ;;;
  when (log_wandb args) (do_call env epoch WandbLog) ;;;
  do_call env epoch StateDict ;;;
  do_call env epoch SaveCheckpoint ;;;
  when (should_copy args epoch) (do_call env epoch SaveCopy) ;;;
  if validate then
    when (save_val_imgs args) (do_call env epoch PredictAndSaveValImgs) ;;;
    check_improvement args env epoch st
  else ret (Continue st).

(** [for epoch in pbar: ...], with [break]. *)
Fixpoint fit_loop (args : Args) (env : Env) (epochs : list Z)
         (st : LoopState) : M event unit :=
  match epochs with
  | [] => ret tt
  | epoch :: rest =>
      c <- epoch_body args env epoch st ;;
      match c with
      | Break => ret tt
      | Continue st' => fit_loop args env rest st'
      end
  end.

(** [MultiTrainer.fit]: the loop inside [try: ... except KeyboardInterrupt:
    pass], then the teardown. *)
Definition teardown (args : Args) : M event unit :=
  when (log_wandb args) (emit WandbFinish) ;;;
  emit (Print "Training has finished") ;;;
  emit WriteConfig.

Definition fit (args : Args) (env : Env) : M event unit :=
  emit (Print "Training has started") ;;;
  try_except is_KeyboardInterrupt
    (fit_loop args env (range (num_epochs args)) (initial_state args))
    (fun _ => ret tt) ;;;
  teardown args.

(** The epochs whose training pass completed, in order. *)
Definition trained_epochs (t : list event) : list Z :=
  flat_map (fun e => match e with
                     | Call epoch TrainOneEpoch => [epoch]
                     | _ => []
                     end) t.

(** A run in which no collaborator raises. *)
Definition quiet (v : Z -> fval) : Env := mkEnv (fun _ _ => None) v.

(** *** Setting up: [__init__], [setup_dataset], [setup_training] *)

(** What the collaborators do during the set-up. *)
Record Setup : Type := mkSetup {
  setup_experiment_raises : option exn;  (* DefaultTrainer.setup_experiment *)
  setup_model_raises : option exn;       (* DefaultTrainer.setup_model *)
  ds_len : Dataset -> nat;               (* the samples found on disk *)
  fetch_raises : option exn;             (* reading the first validation batch *)
  model_raises : option exn;             (* model(imgs) *)
  perf_raises : nat -> option exn        (* perf_funcs[i](scores, targets) *)
}.

Definition external (r : option exn) : M event unit :=
  match r with
  | Some x => raise x
  | None => ret tt
  end.

Record DatasetElements : Type := mkDatasetElements {
  ds_train : Dataset;
  ds_valid : list (string * Dataset);
  loss_ignore_index : Z;                 (* nn.CrossEntropyLoss(ignore_index) *)
  perf_funcs : list perf_func
}.

(** [MultiTrainer.setup_dataset] *)
Definition setup_dataset (args : Args) : M event DatasetElements :=
  let '(ds_train_vessshape, ds_valids, ignore_index) :=
    get_datasets (dataset_path args) in
  let loss_function := loss_function args in
  loss_func <-
    (if String.eqb loss_function "cross_entropy" then ret ignore_index
     else raise (ValueError
            ("Loss function " ++ loss_function ++ " not recognized")%string)) ;;
  let perf_funcs := [ ["Accuracy"; "IoU"; "Precision"; "Recall"; "Dice"] ] in
  ret (mkDatasetElements ds_train_vessshape ds_valids loss_func perf_funcs).

Inductive Optimizer : Type :=
| SGD
| Adam
| AdamW.

(** Lines 211-222: [if optimizer=="sgd": ... elif ...=="adam": ... elif
    ...=="adamw": ...], with no [else]; [None] is the local [optim] left
    unbound. *)
Definition select_optimizer (optimizer : string) : option Optimizer :=
  if String.eqb optimizer "sgd" then Some SGD
  else if String.eqb optimizer "adam" then Some Adam
  else if String.eqb optimizer "adamw" then Some AdamW
  else None.

Record TrainingElements : Type := mkTrainingElements {
  dl_valid : list (string * DataLoader);
  optim : Optimizer;
  scheduler_total_iters : Z              (* PolynomialLR(optim, num_epochs, ...) *)
}.

Definition msg_dataloader : string :=
  "The following problem was detected on the validation dataloader:".
Definition msg_model : string :=
  "The following error happened when applying the model to the validation batch:".
Definition msg_perf_funcs : string :=
  "The following error happened when applying the performance functions:".

(** [dl = next(iter(dl_valids.values())); imgs, targets = next(iter(dl))] *)
Definition first_batch (pre : Setup) (dl_valids : list (string * DataLoader))
  : M event batch :=
  match dl_valids with
  | [] => raise StopIteration
  | (_, dl) :: _ =>
      external (fetch_raises pre) ;;;
      match iter_loader (fun l => l) dl with
      | [] => raise StopIteration
      | b :: _ => ret b
      end
  end.

(** [for perf_func in module_runner.perf_funcs: perf_func(scores, targets)] *)
Fixpoint apply_perf_funcs (pre : Setup) (i : nat) (pfs : list perf_func)
  : M event unit :=
  match pfs with
  | [] => ret tt
  | _ :: r => external (perf_raises pre i) ;;; apply_perf_funcs pre (S i) r
  end.

(** Lines 167-177: one loader per validation dataset, [shuffle=False]. *)
Definition make_dl_valids (args : Args) (pre : Setup)
           (ds_valid : list (string * Dataset)) : list (string * DataLoader) :=
  map (fun '(name, ds) =>
         (name, mkDataLoader (ds_len pre ds) (bs_valid args) false))
      ds_valid.

(** [try: m  except Exception as e: print(msg); raise e] *)
Definition attributed {A} (msg : string) (m : M event A) : M event A :=
  try_except is_Exception m (fun e => emit (Print msg) ;;; raise e).

(** [MultiTrainer.setup_training].  It returns the configuration, which it
    may have changed, with the elements it built.  The batch sizes are taken
    to be positive, as the loaders' constructor requires. *)
Definition setup_training (args : Args) (pre : Setup) (de : DatasetElements)
  : M event (Args * TrainingElements) :=
  let num_epochs := num_epochs args in
  let optimizer := optimizer args in
  let dl_valids := make_dl_valids args pre (ds_valid de) in
  imgs <- attributed msg_dataloader (first_batch pre dl_valids) ;;
  attributed msg_model (external (model_raises pre)) ;;;
  attributed msg_perf_funcs (apply_perf_funcs pre 0 (perf_funcs de)) ;;;
  let optim := select_optimizer optimizer in
  optim <- match optim with
           | Some o => ret o
           | None => raise (UnboundLocalError "optim")
           end ;;
  let args := if profile args then set_num_epochs 2 args else args in
  ret (args, mkTrainingElements dl_valids optim num_epochs).

Record Trainer : Type := mkTrainer {
  trainer_args : Args;
  dataset_elements : DatasetElements;
  training_elements : TrainingElements
}.

(** [MultiTrainer.__init__] *)
Definition init (args : Args) (pre : Setup) : M event Trainer :=
  emit (Print "Setting up the experiment...") ;;;
  external (setup_experiment_raises pre) ;;;
  de <- setup_dataset args ;;
  external (setup_model_raises pre) ;;;
  r <- setup_training args pre de ;;
  emit (Print "Done setting up.") ;;;
  ret (mkTrainer (fst r) de (snd r)).

(** [MultiTrainer().fit()] *)
Definition main (args : Args) (pre : Setup) (env : Env) : M event unit :=
  t <- init args pre ;;
  fit (trainer_args t) env.

(** The stages of the sanity check of [setup_training], and what it means
    that the check fails at one of them with the exception [x]. *)
Inductive stage : Type :=
| Dataloader
| Model
| MetricFunction.

Definition stage_message (s : stage) : string :=
  match s with
  | Dataloader => msg_dataloader
  | Model => msg_model
  | MetricFunction => msg_perf_funcs
  end.

Definition fails_at (pre : Setup) (dl_valids : list (string * DataLoader))
           (pfs : list perf_func) (s : stage) (x : exn) : Prop :=
  match s with
  | Dataloader => outcome (first_batch pre dl_valids) = Raise x
  | Model =>
      (exists b, outcome (first_batch pre dl_valids) = Ret b) /\
      model_raises pre = Some x
  | MetricFunction =>
      (exists b, outcome (first_batch pre dl_valids) = Ret b) /\
      model_raises pre = None /\
      outcome (apply_perf_funcs pre 0 pfs) = Raise x
  end.

End Train.

(** ** src/dataset.py: file names and labels *)

Module DatasetFiles.

(** [s] without the prefix [p], when it starts with it. *)
Fixpoint strip_prefix (p s : string) : option string :=
  match p with
  | EmptyString => Some s
  | String a p' =>
      match s with
      | EmptyString => None
      | String b s' => if Ascii.eqb a b then strip_prefix p' s' else None
      end
  end.

(** [s.replace(old, new)] for a non-empty [old]: every occurrence, from the
    left, without overlap.  Each step consumes a character of [s], which the
    fuel counts. *)
Fixpoint replace_fuel (fuel : nat) (old new s : string) : string :=
  match fuel with
  | O => s
  | S fuel' =>
      match strip_prefix old s with
      | Some rest => (new ++ replace_fuel fuel' old new rest)%string
      | None =>
          match s with
          | EmptyString => EmptyString
          | String c s' => String c (replace_fuel fuel' old new s')
          end
      end
  end.

Definition str_replace (old new s : string) : string :=
  replace_fuel (S (String.length s)) old new s.

(** [name_to_label_map(img_path)] *)
Definition name_to_label_map (img_path : string) : string :=
  str_replace ".tiff" ".png" img_path.

(** [label_opener]: [np.array(img_pil)//255] on the decoded pixels. *)
Definition label_opener (pixels : list Z) : list Z :=
  map (fun p => p / 255) pixels.

(** No character of [s] is a dot. *)
Fixpoint no_dot (s : string) : bool :=
  match s with
  | EmptyString => true
  | String c s' => negb (Ascii.eqb "."%char c) && no_dot s'
  end.

End DatasetFiles.

(** ** train.py: [predict_and_save_val_imgs] *)

Module ValImgs.

Import Dataset MultiDataset Runner.

(** [f"{z}"] for an integer. *)
Definition str (z : Z) : string :=
  DecimalString.NilEmpty.string_of_int (Z.to_int z).

(** [run_path/"images"/f"image_{img_idx}"/f"{name}_epoch_{epoch}.png"] *)
Definition image_path (run_path : Path) (name : string) (img_idx epoch : Z)
  : Path :=
  join (join (join run_path "images") ("image_" ++ str img_idx)%string)
       (name ++ "_epoch_" ++ str epoch ++ ".png")%string.

(** [prediction = 255*prediction/(runner.num_classes-1)], a true division,
    then [.to(torch.uint8)], for one pixel of class [c]. *)
Definition scale_prediction (num_classes c : Z) : Z :=
  astype_uint8 (inject_Z (255 * c) / inject_Z (num_classes - 1)).

Inductive event : Type :=
| Save (path : Path) (pixels : list Z).     (* pil_img.save(path) *)

(** The collaborators: whether [ds[img_idx]] raises, and the classes
    [torch.argmax(runner.predict(img), dim=1)] of the pixels. *)
Record Env : Type := mkEnv {
  getitem_raises : string -> Z -> option exn;
  argmax : string -> Z -> list Z
}.

Definition predict_and_save_val_imgs (env : Env) (ds_valid : list string)
           (num_classes : Z) (epoch : Z) (img_indices : list Z)
           (run_path : Path) : M event unit :=
  for_each ds_valid (fun name =>
    for_each img_indices (fun img_idx =>
      match getitem_raises env name img_idx with
      | Some x => raise x
      | None =>
          let prediction :=
            map (scale_prediction num_classes) (argmax env name img_idx) in
          emit (Save (image_path run_path name img_idx epoch) prediction)
      end)).

End ValImgs.

(** ** Notions used to state the properties, and the inputs of the examples *)

Module Notions.

Import Dataset MultiDataset Runner Train.

(** A computation of the pass that completes and gives nothing to the
    model for the dataset [ds_name]. *)
Definition logs_only (ds_name : string) (m : M effect unit) : Prop :=
  outcome m = Ret tt /\ forwarded ds_name (trace m) = [].

(** The run gets to the start of [epoch] with the loop in state [st]: every
    earlier pass through the body completed without [break]. *)
Inductive reaches (args : Args) (env : Env) : Z -> LoopState -> Prop :=
| reaches_start : reaches args env 0 (initial_state args)
| reaches_next epoch st st' :
    reaches args env epoch st ->
    outcome (epoch_body args env epoch st) = Ret (Continue st') ->
    reaches args env (epoch + 1) st'.

(** The epochs [a], [a+1], ..., [a+k-1]; [range n] is [span 0 n]. *)
Definition span (a k : nat) : list Z := map Z.of_nat (seq a k).

(** The validation condition of an epoch, as the specification words it. *)
Definition validation_due (args : Args) (e : Z) : Prop :=
  e = 0 \/ e = num_epochs args - 1 \/ (validate_every args | e).

(** The validation loaders of a run on the three datasets, with 100 samples
    in VessMAP, 20 in the test split of DRIVE, and [bs_valid = 8]. *)
Definition loaders_100_20 : list (string * DataLoader) :=
  [ ("VessShape", mkDataLoader 100 8 false);
    ("DRIVE", mkDataLoader 20 8 false);
    ("VessMAP", mkDataLoader 100 8 false) ].

(** A configuration with the given optimizer and loss function names: ten
    epochs, validation at every epoch, patience 2. *)
Definition example_args (optimizer loss_function : string) : Args :=
  mkArgs 10 1 (Some 2) "Dice VessMAP" true false 0 false false
         optimizer loss_function "/data" 8.

(** Collaborators that all succeed, on datasets of 20 samples. *)
Definition setup_ok : Setup :=
  mkSetup None None (fun _ => 20%nat) None None (fun _ => None).


End Notions.

(** ** Notions used by the further properties *)

Module MoreNotions.

Import MultiDataset Runner Train.

(** The three stages of the sanity check of [setup_training] succeed. *)
Definition sanity_passes (pre : Setup) (dl_valids : list (string * DataLoader))
           (pfs : list perf_func) : Prop :=
  (exists b, outcome (first_batch pre dl_valids) = Ret b) /\
  model_raises pre = None /\
  outcome (apply_perf_funcs pre 0 pfs) = Ret tt.

(** The configuration [fit] receives after a set-up that succeeds. *)
Definition args_after_setup (args : Args) : Args :=
  if profile args then set_num_epochs 2 args else args.

(** The stage of the sanity check at which a collaborator raises [x], the
    stages before it succeeding; [n_perf] is the number of performance
    functions, applied in order. *)
Inductive stage_raises (pre : Setup) (n_perf : nat) : stage -> exn -> Prop :=
| raises_in_dataloader x :
    fetch_raises pre = Some x ->
    stage_raises pre n_perf Dataloader x
| raises_in_model x :
    fetch_raises pre = None ->
    model_raises pre = Some x ->
    stage_raises pre n_perf Model x
| raises_in_metric_function x i :
    fetch_raises pre = None ->
    model_raises pre = None ->
    (i < n_perf)%nat ->
    perf_raises pre i = Some x ->
    (forall j, (j < i)%nat -> perf_raises pre j = None) ->
    stage_raises pre n_perf MetricFunction x.

(** What the sanity check prints for an exception raised at a stage. *)
Definition attribution (s : stage) (x : exn) : list event :=
  if is_Exception x then [Print (stage_message s)] else [].

(** A run of the example in which [module_runner.state_dict()] is
    interrupted in epoch 1, after [log.csv] and [plots.png] are written. *)
Definition interrupted_at_state_dict : Env :=
  mkEnv (fun epoch c =>
           match c with
           | StateDict => if epoch =? 1 then Some KeyboardInterrupt else None
           | _ => None
           end)
        (fun _ => Fin 1).

(** The names of a dict, in its order. *)
Definition keys {A} (d : list (string * A)) : list string := map fst d.

End MoreNotions.

Import Dataset MultiDataset Runner Train Notions.

(** Case analysis over the paths of the loop body. *)
Ltac body_cases :=
  unfold epoch_body, check_improvement, should_validate, py_mod, do_call, when;
  repeat first
    [ progress (cbn [bind ret raise emit fst snd app trace outcome
                     raises val_metric quiet])
    | match goal with
      | |- context [if ?b then _ else _] => destruct b eqn:?
      | |- context [match raises ?env ?e ?c with _ => _ end] =>
          destruct (raises env e c) eqn:?
      | |- context [match patience ?a with _ => _ end] =>
          destruct (patience a) eqn:?
      end ].

(** * Properties *)

(** ** The datasets of [get_datasets] *)

(** C10: [get_datasets] builds the training dataset and the validation
    dataset it names "VessShape" by the same call, [VessMAP] on the VessMAP
    root with [keepdim=True] and the 256x256 resize, so the two are the same
    data; no dataset it returns is rooted in the VessShape directory. *)
Theorem get_datasets_VessShape_is_training_VessMAP (datasets_root : string) :
  let r := get_datasets datasets_root in
  let ds_train := fst (fst r) in
  let ds_valids := snd (fst r) in
  let vessmap := VessMAP (join (Path_of datasets_root) "VessMAP") true
                         (mkValidTransforms (Some (256, 256)) true) in
  ds_train = vessmap /\
  dict_get ds_valids "VessShape" = Some vessmap /\
  dict_get ds_valids "VessShape" = Some ds_train /\
  dataset_root ds_train <> join (Path_of datasets_root) "VessShape" /\
  Forall (fun kv => dataset_root (snd kv)
                    <> join (Path_of datasets_root) "VessShape") ds_valids.
Proof.
  cbn. repeat split; try discriminate.
  repeat constructor; cbn; discriminate.
Qed.

(** ** One validation pass *)

Lemma forwarded_app ds_name (t1 t2 : list effect) :
  forwarded ds_name (t1 ++ t2) = forwarded ds_name t1 ++ forwarded ds_name t2.
Proof. apply flat_map_app. Qed.

Lemma for_each_logs_only {A} ds_name (l : list A) (body : A -> M effect unit) :
  (forall a, logs_only ds_name (body a)) ->
  logs_only ds_name (for_each l body).
Proof.
  intros Hbody. induction l as [|a l IH]; [split; reflexivity|].
  cbn [for_each]. destruct (Hbody a) as [H1 H2]. destruct IH as [H3 H4].
  destruct (body a) as [t1 r1]. destruct (for_each l body) as [t2 r2].
  unfold outcome, trace in *. cbn [fst snd] in *. subst r1 r2.
  unfold logs_only, bind, outcome, trace. cbn [fst snd].
  split; [reflexivity|]. now rewrite forwarded_app, H2, H4.
Qed.

Lemma validate_batches_consumes perf epoch ds_name pbar dl_iter :
  (List.length pbar <= List.length dl_iter)%nat ->
  outcome (validate_batches perf epoch ds_name pbar dl_iter) = Ret tt /\
  forwarded ds_name (trace (validate_batches perf epoch ds_name pbar dl_iter))
  = firstn (List.length pbar) dl_iter.
Proof.
  revert dl_iter. induction pbar as [|i pbar IH]; intros dl_iter Hlen.
  - split; reflexivity.
  - destruct dl_iter as [|b rest]; [cbn in Hlen; lia|].
    cbn in Hlen. destruct (IH rest) as [Ho Hf]; [lia|].
    cbn [validate_batches].
    match goal with |- context [for_each perf ?f] => set (logs := for_each perf f) end.
    assert (Hlogs : logs_only ds_name logs).
    { apply for_each_logs_only. intros pf. apply for_each_logs_only.
      intros name. split; reflexivity. }
    destruct Hlogs as [Hl1 Hl2].
    destruct logs as [tl rl].
    destruct (validate_batches perf epoch ds_name pbar rest) as [tr rr].
    unfold outcome, trace in *. cbn [fst snd] in *. subst rl rr.
    unfold bind, emit. cbn [fst snd app]. split; [reflexivity|].
    change (forwarded ds_name (Forward ds_name i b :: ?t))
      with ((if String.eqb ds_name ds_name then [b] else []) ++ forwarded ds_name t).
    rewrite String.eqb_refl.
    change (forwarded ds_name (LoggerLog ?e ?i ?n ?w :: ?t))
      with (forwarded ds_name t).
    rewrite forwarded_app, Hl2.
    change (forwarded ds_name (ProfilerStep :: ?t)) with (forwarded ds_name t).
    cbn [app firstn]. now rewrite Hf.
Qed.

(** C3 (as the code behaves): each loader is advanced [len(self.dl_valid)]
    times, the number of validation datasets, not [len(dl_valid)] times.  On
    three datasets a loader of 13 batches has its first 3 batches evaluated
    and the other 10 skipped. *)
Theorem validate_one_epoch_stops_after_three_batches :
  let t := trace (validate_one_epoch loaders_100_20
                    [["Accuracy"; "IoU"; "Precision"; "Recall"; "Dice"]] 0) in
  let all := iter_loader (fun l => l) (mkDataLoader 100 8 false) in
  List.length all = 13%nat /\
  forwarded "VessMAP" t = firstn 3 all /\
  forwarded "VessMAP" t
  = [ [0; 1; 2; 3; 4; 5; 6; 7]; [8; 9; 10; 11; 12; 13; 14; 15];
      [16; 17; 18; 19; 20; 21; 22; 23] ]%nat /\
  forwarded "VessMAP" t <> all.
Proof.
  vm_compute. repeat split; discriminate.
Qed.

(** ** The multiplicative augmentation *)

(** Inside the range of a pixel the conversion only drops the fraction. *)
Lemma astype_uint8_in_range (x : Q) (p : Z) :
  (0 <= x)%Q -> (x <= inject_Z p)%Q -> p <= 255 ->
  astype_uint8 x = Qfloor x /\ 0 <= Qfloor x <= p.
Proof.
  intros Hx Hp H255.
  assert (Hlo : 0 <= Qfloor x).
  { change 0 with (Qfloor 0). now apply Qfloor_resp_le. }
  assert (Hhi : Qfloor x <= p).
  { rewrite <- (Qfloor_Z p). now apply Qfloor_resp_le. }
  split; [|lia].
  unfold astype_uint8. destruct x as [n d]. cbn [Qnum Qden Qfloor] in *.
  assert (Hn : 0 <= n). { unfold Qle in Hx. cbn in Hx. lia. }
  rewrite Z.quot_div_nonneg by lia.
  apply Z.mod_small. lia.
Qed.

(** *** Rounding to binary64 *)

Import Float64.

















(** *** The augmentation with the configured range *)




(** What float64 gives on the pixel 90 with the draw 0, on three pixels with
    the draw 1/4, and for the factor of the largest draw. *)
Example multiply_draw_0 : multiply (fun _ => 0) 0 [90] = [62].
Proof. vm_compute. reflexivity. Qed.

Example multiply_draw_quarter :
  multiply (fun _ => 0) (1 # 4) [40; 80; 120] = [30; 61; 92].
Proof. vm_compute. reflexivity. Qed.

Example mult_val_largest_draw :
  (mult_val (round (7 # 10), 1) (1 - (1 # 2 ^ 53)) == 1)%Q.
Proof. apply Qeq_bool_iff. vm_compute. reflexivity. Qed.



(** ** Setting up *)

(** The loss function is dispatched with an [else] branch that names what it
    does not recognize. *)
Lemma setup_dataset_unrecognized_loss (args : Args) :
  String.eqb (loss_function args) "cross_entropy" = false ->
  setup_dataset args
  = ([], Raise (ValueError ("Loss function " ++ loss_function args
                            ++ " not recognized")%string)).
Proof.
  intros H. unfold setup_dataset. cbn. now rewrite H.
Qed.

(** C4 (as the code behaves): the optimizer is dispatched without an [else]
    branch.  With the optimizer "rmsprop" the set-up stops, before any
    epoch, on the unbound local [optim]; the error does not name "rmsprop". *)
Theorem unrecognized_optimizer_raises_unbound_local :
  main (example_args "rmsprop" "cross_entropy") setup_ok
       (quiet (fun _ => NaN))
  = ([Print "Setting up the experiment..."],
     Raise (UnboundLocalError "optim")).
Proof. reflexivity. Qed.

Lemma external_trace (r : option exn) : trace (external r) = [].
Proof. now destruct r. Qed.

Lemma first_batch_trace pre dl_valids : trace (first_batch pre dl_valids) = [].
Proof.
  unfold first_batch. destruct dl_valids as [|[name dl] rest]; [reflexivity|].
  destruct (fetch_raises pre); [reflexivity|].
  cbn. now destruct (iter_loader _ dl).
Qed.

Lemma apply_perf_funcs_trace pre pfs :
  forall i, trace (apply_perf_funcs pre i pfs) = [].
Proof.
  induction pfs as [|pf pfs IH]; intros i; [reflexivity|].
  cbn [apply_perf_funcs]. destruct (perf_raises pre i); [reflexivity|].
  cbn. specialize (IH (S i)).
  destruct (apply_perf_funcs pre (S i) pfs) as [t r]. cbn in *. now subst t.
Qed.

(** A computation with no effect of its own, by its outcome. *)
Lemma silent_eq {A} (m : M event A) :
  trace m = [] -> m = ([], outcome m).
Proof. destruct m as [t r]. cbn. now intros ->. Qed.

(** The sanity check of [setup_training] prints the message of the stage
    that failed and raises the exception again. *)
Lemma setup_training_sanity_failure args pre de s x :
  is_Exception x = true ->
  fails_at pre (make_dl_valids args pre (ds_valid de)) (perf_funcs de) s x ->
  setup_training args pre de = ([Print (stage_message s)], Raise x).
Proof.
  intros Hx Hfail. unfold setup_training, attributed.
  set (dls := make_dl_valids args pre (ds_valid de)) in *.
  rewrite (silent_eq (first_batch pre dls) (first_batch_trace pre dls)).
  rewrite (silent_eq (apply_perf_funcs pre 0 (perf_funcs de))
                     (apply_perf_funcs_trace pre (perf_funcs de) 0%nat)).
  destruct s; cbn [fails_at stage_message] in *.
  - rewrite Hfail. cbn. now rewrite Hx.
  - destruct Hfail as [[b Hb] Hm]. rewrite Hb, Hm. cbn. now rewrite Hx.
  - destruct Hfail as [[b Hb] [Hm Hp]]. rewrite Hb, Hm, Hp. cbn. now rewrite Hx.
Qed.

Import MoreNotions.

(** The sanity check of [setup_training], for any exception: the message
    of the stage is printed when [except Exception] catches it. *)
Lemma setup_training_sanity_outcome args pre de s x :
  fails_at pre (make_dl_valids args pre (ds_valid de)) (perf_funcs de) s x ->
  setup_training args pre de = (attribution s x, Raise x).
Proof.
  intros Hfail. unfold setup_training, attributed, attribution.
  set (dls := make_dl_valids args pre (ds_valid de)) in *.
  rewrite (silent_eq (first_batch pre dls) (first_batch_trace pre dls)).
  rewrite (silent_eq (apply_perf_funcs pre 0 (perf_funcs de))
                     (apply_perf_funcs_trace pre (perf_funcs de) 0%nat)).
  destruct s; cbn [fails_at stage_message] in *.
  - rewrite Hfail. cbn. now destruct (is_Exception x).
  - destruct Hfail as [[b Hb] Hm]. rewrite Hb, Hm. cbn.
    now destruct (is_Exception x).
  - destruct Hfail as [[b Hb] [Hm Hp]]. rewrite Hb, Hm, Hp. cbn.
    now destruct (is_Exception x).
Qed.

(** The first batch of a loader over a dataset that is not empty. *)
Lemma first_batch_of_nonempty pre name len bs rest :
  len <> 0%nat ->
  outcome (first_batch pre ((name, mkDataLoader len bs false) :: rest))
  = match fetch_raises pre with
    | Some x => Raise x
    | None => Ret (firstn (Z.to_nat bs) (seq 0 len))
    end.
Proof.
  intros Hlen. unfold first_batch. destruct (fetch_raises pre); [reflexivity|].
  unfold iter_loader. cbn [dl_len batch_size shuffle].
  destruct len as [|n]; [now destruct Hlen|]. reflexivity.
Qed.

(** The performance functions are applied in order up to the first one that
    raises. *)
Lemma apply_perf_funcs_first_failure pre x pfs :
  forall k i,
    (i < List.length pfs)%nat ->
    perf_raises pre (k + i) = Some x ->
    (forall j, (j < i)%nat -> perf_raises pre (k + j) = None) ->
    outcome (apply_perf_funcs pre k pfs) = Raise x.
Proof.
  induction pfs as [|pf pfs IH]; intros k i Hi Hx Hbefore; [cbn in Hi; lia|].
  cbn [apply_perf_funcs]. destruct i as [|i].
  - rewrite Nat.add_0_r in Hx. now rewrite Hx.
  - rewrite <- (Nat.add_0_r k) at 1. rewrite (Hbefore 0%nat) by lia.
    cbn [external bind ret]. cbn in Hi.
    specialize (IH (S k) i ltac:(lia)).
    destruct (apply_perf_funcs pre (S k) pfs) as [t r]. cbn [outcome snd] in *.
    apply IH.
    + now replace (S k + i)%nat with (k + S i)%nat by lia.
    + intros j Hj. replace (S k + j)%nat with (k + S j)%nat by lia.
      apply Hbefore. lia.
Qed.

Lemma stage_raises_fails_at args pre de name ds rest s x :
  ds_valid de = (name, ds) :: rest ->
  ds_len pre ds <> 0%nat ->
  stage_raises pre (List.length (perf_funcs de)) s x ->
  fails_at pre (make_dl_valids args pre (ds_valid de)) (perf_funcs de) s x.
Proof.
  intros Hds Hlen Hs. rewrite Hds. cbn [make_dl_valids map].
  pose proof (first_batch_of_nonempty pre name (ds_len pre ds) (bs_valid args)
                (map (fun '(name0, ds0) =>
                        (name0, mkDataLoader (ds_len pre ds0) (bs_valid args)
                                             false)) rest) Hlen) as Hfirst.
  destruct Hs as [x Hf|x Hf Hm|x i Hf Hm Hi Hx Hbefore];
    rewrite Hf in Hfirst; cbn [fails_at].
  - exact Hfirst.
  - split; [eexists; exact Hfirst|exact Hm].
  - split; [eexists; exact Hfirst|]. split; [exact Hm|].
    now apply (apply_perf_funcs_first_failure pre x (perf_funcs de) 0%nat i).
Qed.

(** C6, as stated, fails for an exception that is not of class
    [Exception]: a [KeyboardInterrupt] raised while the model is applied to
    the validation batch ends the program with no message of a stage. *)
Lemma interrupt_in_model_stage_is_not_attributed :
  let pre := mkSetup None None (fun _ => 20%nat) None
                     (Some KeyboardInterrupt) (fun _ => None) in
  let run := main (example_args "adam" "cross_entropy") pre
                  (quiet (fun _ => NaN)) in
  stage_raises pre 1 Model KeyboardInterrupt /\
  run = ([Print "Setting up the experiment..."], Raise KeyboardInterrupt) /\
  ~ In (Print (stage_message Model)) (trace run).
Proof.
  cbv zeta. split; [now constructor|]. split; [reflexivity|].
  intros [H|[]]. discriminate.
Qed.

(** C6, amended: when the steps of the set-up before it succeed, the first
    validation dataset is not empty and a collaborator raises [x] at a stage
    of the sanity check (reading the first validation batch, applying the
    model, applying the performance functions in order), the program ends
    with [x] before any epoch is trained; it prints the message of that
    stage when [x] is of class [Exception], and no message otherwise. *)
Theorem sanity_check_failure_is_fatal_and_attributed
        args pre env de name ds rest (s : stage) (x : exn) :
  setup_experiment_raises pre = None ->
  setup_dataset args = ([], Ret de) ->
  setup_model_raises pre = None ->
  ds_valid de = (name, ds) :: rest ->
  ds_len pre ds <> 0%nat ->
  0 < bs_valid args ->
  stage_raises pre (List.length (perf_funcs de)) s x ->
  main args pre env
  = (Print "Setting up the experiment..." :: attribution s x, Raise x) /\
  (is_Exception x = true -> attribution s x = [Print (stage_message s)]) /\
  (is_Exception x = false -> attribution s x = []) /\
  trained_epochs (trace (main args pre env)) = [].
Proof.
  intros He Hd Hm Hds Hlen Hbs Hs.
  pose proof (stage_raises_fails_at args pre de name ds rest s x Hds Hlen Hs)
    as Hfail.
  assert (Hmain : main args pre env
          = (Print "Setting up the experiment..." :: attribution s x,
             Raise x)).
  { unfold main, init. rewrite He, Hd, Hm.
    cbn -[setup_training fit attribution].
    rewrite (setup_training_sanity_outcome args pre de s x Hfail).
    reflexivity. }
  split; [exact Hmain|]. unfold attribution.
  split; [now intros ->|]. split; [now intros ->|].
  rewrite Hmain. unfold attribution. cbn [trace fst].
  destruct (is_Exception x); reflexivity.
Qed.

(** A failure at each of the three stages. *)
Lemma sanity_check_failure_witness :
  let args := example_args "adam" "cross_entropy" in
  let env := quiet (fun _ => NaN) in
  let broken_file := OtherException "cannot identify image file" in
  let wrong_shape := OtherException "size mismatch" in
  let bad_metric := ValueError "shapes do not match" in
  let pre1 := mkSetup None None (fun _ => 20%nat) (Some broken_file) None
                      (fun _ => None) in
  let pre2 := mkSetup None None (fun _ => 20%nat) None (Some wrong_shape)
                      (fun _ => None) in
  let pre3 := mkSetup None None (fun _ => 20%nat) None None
                      (fun _ => Some bad_metric) in
  main args pre1 env
  = ([Print "Setting up the experiment..."; Print msg_dataloader],
     Raise broken_file) /\
  main args pre2 env
  = ([Print "Setting up the experiment..."; Print msg_model],
     Raise wrong_shape) /\
  main args pre3 env
  = ([Print "Setting up the experiment..."; Print msg_perf_funcs],
     Raise bad_metric).
Proof.
  intros args env broken_file wrong_shape bad_metric pre1 pre2 pre3.
  assert (Hde : exists de, setup_dataset args = ([], Ret de) /\
                           List.length (perf_funcs de) = 1%nat /\
                           exists name ds rest,
                             ds_valid de = (name, ds) :: rest).
  { eexists. split; [reflexivity|]. split; [reflexivity|].
    eexists; eexists; eexists; reflexivity. }
  destruct Hde as [de [Hde [Hn [name [ds [rest Hds]]]]]].
  split; [|split].
  - apply (sanity_check_failure_is_fatal_and_attributed
             args pre1 env de name ds rest Dataloader broken_file);
      try reflexivity; try discriminate; try exact Hde; try exact Hds.
    now constructor.
  - apply (sanity_check_failure_is_fatal_and_attributed
             args pre2 env de name ds rest Model wrong_shape);
      try reflexivity; try discriminate; try exact Hde; try exact Hds.
    now constructor.
  - apply (sanity_check_failure_is_fatal_and_attributed
             args pre3 env de name ds rest MetricFunction bad_metric);
      try reflexivity; try discriminate; try exact Hde; try exact Hds.
    rewrite Hn. apply (raises_in_metric_function pre3 1 bad_metric 0%nat);
      try reflexivity; lia.
Defined.

(** ** The loop body *)

Lemma trained_epochs_app t1 t2 :
  trained_epochs (t1 ++ t2) = trained_epochs t1 ++ trained_epochs t2.
Proof. apply flat_map_app. Qed.

(** The training pass opens the body: it completes and is the only one of
    the epoch, or it raises and nothing else is done. *)
Lemma epoch_body_trained args env e st :
  (raises env e TrainOneEpoch = None /\
   trained_epochs (trace (epoch_body args env e st)) = [e]) \/
  (exists x, raises env e TrainOneEpoch = Some x /\
             epoch_body args env e st = ([], Raise x)).
Proof.
  destruct (raises env e TrainOneEpoch) as [x|] eqn:Ht.
  - right. exists x. split; [reflexivity|].
    unfold epoch_body, do_call. now rewrite Ht.
  - left. split; [reflexivity|].
    body_cases; try congruence; reflexivity.
Qed.

Lemma epoch_body_returns_trained args env e st t c :
  epoch_body args env e st = (t, Ret c) -> trained_epochs t = [e].
Proof.
  intros H. destruct (epoch_body_trained args env e st) as [[_ Ht]|[x [_ Hx]]].
  - now rewrite H in Ht.
  - rewrite H in Hx. discriminate.
Qed.

(** The epochs trained by the loop are an initial part of its range. *)
Lemma fit_loop_trained_prefix args env l :
  forall st, exists rest,
    trained_epochs (trace (fit_loop args env l st)) ++ rest = l.
Proof.
  induction l as [|e l IH]; intros st; [now exists []|].
  cbn [fit_loop]. unfold bind.
  destruct (epoch_body_trained args env e st) as [[_ Ht]|[x [_ Hx]]].
  - destruct (epoch_body args env e st) as [tb [[st'|]|x]]; cbn [trace fst] in Ht.
    + destruct (IH st') as [rest Hrest].
      destruct (fit_loop args env l st') as [tl rl]. cbn [trace fst] in *.
      exists rest. rewrite trained_epochs_app, Ht. cbn. now rewrite Hrest.
    + exists l. cbn [ret trace fst]. rewrite trained_epochs_app, Ht. reflexivity.
    + exists l. cbn [trace fst]. now rewrite Ht.
  - rewrite Hx. now exists (e :: l).
Qed.

Lemma teardown_eq args :
  teardown args
  = ((if log_wandb args then [WandbFinish] else [])
     ++ [Print "Training has finished"; WriteConfig], Ret tt).
Proof. unfold teardown, when. now destruct (log_wandb args). Qed.

Lemma teardown_trained args : trained_epochs (trace (teardown args)) = [].
Proof. rewrite teardown_eq. now destruct (log_wandb args). Qed.

Lemma fit_trained args env :
  trained_epochs (trace (fit args env))
  = trained_epochs
      (trace (fit_loop args env (range (num_epochs args)) (initial_state args))).
Proof.
  unfold fit. rewrite teardown_eq.
  destruct (fit_loop args env _ _) as [t [[]|x]]; cbn.
  - rewrite !trained_epochs_app. destruct (log_wandb args); cbn;
      now rewrite app_nil_r.
  - destruct x; cbn; rewrite ?app_nil_r, ?trained_epochs_app;
      try reflexivity.
    destruct (log_wandb args); cbn; now rewrite app_nil_r.
Qed.

(** C9: when [profile] is set, a [setup_training] that succeeds hands on a
    configuration whose [num_epochs] is 2, whatever it was, and the loop
    that follows trains epoch 0 and epoch 1 at most. *)
Theorem profile_limits_run_to_two_epochs args pre de t args' te :
  profile args = true ->
  setup_training args pre de = (t, Ret (args', te)) ->
  num_epochs args' = 2 /\
  forall env, exists rest,
    trained_epochs (trace (fit args' env)) ++ rest = [0; 1].
Proof.
  intros Hp Hs.
  assert (Hargs : args' = set_num_epochs 2 args).
  { revert Hs. unfold setup_training, attributed.
    destruct (first_batch _ _) as [t1 [b|x1]]; cbn;
      [|destruct (is_Exception x1); cbn; discriminate].
    destruct (model_raises pre) as [x2|]; cbn;
      [destruct (is_Exception x2); cbn; discriminate|].
    destruct (apply_perf_funcs _ _ _) as [t3 [[]|x3]]; cbn;
      [|destruct (is_Exception x3); cbn; discriminate].
    destruct (select_optimizer _); cbn; [|discriminate].
    rewrite Hp. intros H. now inversion H. }
  subst args'. split; [reflexivity|].
  intros env. rewrite fit_trained.
  apply (fit_loop_trained_prefix (set_num_epochs 2 args) env [0; 1]).
Qed.

Lemma profile_limits_run_witness :
  num_epochs (set_num_epochs 2 (mkArgs 100 1 None "Dice DRIVE" true false 0
                                       false true "sgd" "cross_entropy"
                                       "/data" 8)) = 2 /\
  forall env, exists rest,
    trained_epochs
      (trace (fit (set_num_epochs 2 (mkArgs 100 1 None "Dice DRIVE" true false
                                            0 false true "sgd" "cross_entropy"
                                            "/data" 8)) env)) ++ rest = [0; 1].
Proof.
  eapply (profile_limits_run_to_two_epochs
            (mkArgs 100 1 None "Dice DRIVE" true false 0 false true
                    "sgd" "cross_entropy" "/data" 8)
            setup_ok
            (mkDatasetElements (fst (fst (get_datasets "/data")))
                               (snd (fst (get_datasets "/data"))) 2
                               [["Dice"]])).
  - reflexivity.
  - reflexivity.
Defined.

(** ** Validation cadence *)

Lemma should_validate_due args e :
  validate_every args <> 0 ->
  exists b, should_validate args e = ([], Ret b) /\
            (b = true <-> validation_due args e).
Proof.
  intros Hv. unfold should_validate, py_mod, validation_due.
  destruct (e =? 0) eqn:H0.
  { exists true. split; [reflexivity|]. split; [lia|reflexivity]. }
  destruct (e =? num_epochs args - 1) eqn:Hl.
  { exists true. split; [reflexivity|]. split; [lia|reflexivity]. }
  destruct (validate_every args =? 0) eqn:Hz; [lia|].
  exists (e mod validate_every args =? 0). split; [reflexivity|].
  rewrite Z.eqb_eq, (Z.mod_divide e _ Hv). split; [tauto|].
  intros [H|[H|H]]; [lia|lia|exact H].
Qed.

(** C5: with [validate_every] not 0, epoch [e] of the range is validated
    exactly when [e] is 0, or the last epoch, or a multiple of
    [validate_every]: this is the flag the body computes, and a body whose
    training and validation passes do not raise makes the validation call
    in that case and in no other.  Epoch 0 and the last epoch are validated
    whatever [validate_every] is. *)
Theorem validation_cadence args e :
  0 <= e < num_epochs args ->
  validate_every args <> 0 ->
  (exists b, should_validate args e = ([], Ret b) /\
             (b = true <-> validation_due args e)) /\
  (forall env st,
      raises env e TrainOneEpoch = None ->
      raises env e ValidateOneEpoch = None ->
      (In (Call e ValidateOneEpoch) (trace (epoch_body args env e st))
       <-> validation_due args e)) /\
  should_validate args 0 = ([], Ret true) /\
  should_validate args (num_epochs args - 1) = ([], Ret true).
Proof.
  intros He Hv.
  destruct (should_validate_due args e Hv) as [b [Hb Hdue]].
  split; [now exists b|]. split.
  - intros env st Ht Hval. unfold epoch_body.
    rewrite Hb. unfold do_call. rewrite Ht.
    destruct b.
    + assert (Hd : validation_due args e) by now apply Hdue.
      split; [intros _; exact Hd|intros _].
      unfold when. rewrite Hval. cbn [bind emit ret fst snd app].
      destruct (bind (E:=event) _ _) as [t r].
      cbn [trace fst app]. right. now left.
    + assert (Hd : ~ validation_due args e).
      { intros H. apply Hdue in H. discriminate. }
      split; [|intros H; now destruct Hd].
      intros Hin. exfalso. revert Hin.
      unfold check_improvement.
      body_cases; cbn [In]; intuition discriminate.
  - split; [reflexivity|].
    unfold should_validate.
    destruct (num_epochs args - 1 =? 0); [reflexivity|].
    now rewrite Z.eqb_refl.
Qed.

Lemma validation_cadence_witness :
  (exists b, should_validate (example_args "adam" "cross_entropy") 6
             = ([], Ret b) /\
             (b = true <->
              validation_due (example_args "adam" "cross_entropy") 6)) /\
  (forall env st,
      raises env 6 TrainOneEpoch = None ->
      raises env 6 ValidateOneEpoch = None ->
      (In (Call 6 ValidateOneEpoch)
          (trace (epoch_body (example_args "adam" "cross_entropy") env 6 st))
       <-> validation_due (example_args "adam" "cross_entropy") 6)) /\
  should_validate (example_args "adam" "cross_entropy") 0 = ([], Ret true) /\
  should_validate (example_args "adam" "cross_entropy")
                  (num_epochs (example_args "adam" "cross_entropy") - 1)
  = ([], Ret true).
Proof.
  apply (validation_cadence (example_args "adam" "cross_entropy") 6).
  - cbn. lia.
  - cbn. lia.
Defined.

(** ** Checkpoints *)

Lemma operator_gt_irrefl v : operator_gt v v = false.
Proof.
  destruct v as [| |q|]; try reflexivity.
  cbn. apply negb_false_iff, Qle_bool_iff, Qle_refl.
Qed.

Lemma compare_strict args v : compare args v v = false.
Proof.
  unfold compare, operator_lt.
  destruct (maximize_validation_metric args); apply operator_gt_irrefl.
Qed.

(** C8: every pass through the body that completes has written
    [checkpoint.pt]; it has written [best_model.pt] exactly when the epoch
    was validated and the comparator put the metric of the epoch before the
    best value held by the loop, which then becomes that metric.  The
    comparator is [operator.gt] when [maximize_validation_metric] is set and
    [operator.lt] otherwise; both are strict. *)
Theorem checkpoint_always_best_model_on_strict_improvement
        args env e st t c :
  epoch_body args env e st = (t, Ret c) ->
  In (Call e SaveCheckpoint) t /\
  (In (Call e SaveBestModel) t <->
   (outcome (should_validate args e) = Ret true /\
    compare args (val_metric env e) (best_val_metric st) = true)) /\
  (In (Call e SaveBestModel) t ->
   c = Continue (mkLoopState (val_metric env e) 0)) /\
  compare args = (if maximize_validation_metric args
                  then operator_gt else operator_lt) /\
  (forall v, compare args v v = false).
Proof.
  intros H.
  split; [|split; [|split; [|split; [reflexivity|apply compare_strict]]]];
    revert H; body_cases; intros H; inversion H; subst; clear H;
    cbn [In]; intuition (try discriminate; try congruence).
Qed.

Lemma checkpoint_best_model_witness :
  let args := example_args "adam" "cross_entropy" in
  let env := quiet (fun _ => Fin 1) in
  let t := trace (epoch_body args env 0 (initial_state args)) in
  In (Call 0 SaveCheckpoint) t /\
  (In (Call 0 SaveBestModel) t <->
   (outcome (should_validate args 0) = Ret true /\
    compare args (val_metric env 0)
            (best_val_metric (initial_state args)) = true)) /\
  (In (Call 0 SaveBestModel) t ->
   Continue (mkLoopState (Fin 1) 0)
   = Continue (mkLoopState (val_metric env 0) 0)) /\
  compare args = (if maximize_validation_metric args
                  then operator_gt else operator_lt) /\
  (forall v, compare args v v = false).
Proof.
  intros args env t.
  apply (checkpoint_always_best_model_on_strict_improvement
           args env 0 (initial_state args) t
           (Continue (mkLoopState (Fin 1) 0))).
  reflexivity.
Defined.

(** ** Interruption *)

(** A loop that raises does so in the body of one of its epochs, after the
    calls of the passes before it. *)
Lemma fit_loop_raise args env l :
  forall st t x,
    fit_loop args env l st = (t, Raise x) ->
    exists e st' t0 tb,
      In e l /\ t = t0 ++ tb /\ epoch_body args env e st' = (tb, Raise x).
Proof.
  induction l as [|e l IH]; intros st t x H; [discriminate|].
  cbn [fit_loop] in H. unfold bind in H.
  destruct (epoch_body args env e st) as [tb [[st'|]|x']] eqn:Hb.
  - destruct (fit_loop args env l st') as [tl rl] eqn:Hl.
    inversion H; subst; clear H.
    destruct (IH st' tl x Hl) as [e' [st'' [t0 [tb' [Hin [Ht Hb']]]]]].
    exists e', st'', (tb ++ t0), tb'. subst tl.
    split; [now right|]. split; [now rewrite app_assoc|exact Hb'].
  - discriminate.
  - inversion H; subst; clear H.
    exists e, st, [], t. split; [now left|]. split; [reflexivity|exact Hb].
Qed.



(** ** Early stopping *)

Lemma span_S a k : span a (S k) = Z.of_nat a :: span (S a) k.
Proof. reflexivity. Qed.

Lemma span_app a k1 k2 : span a (k1 + k2) = span a k1 ++ span (a + k1) k2.
Proof. unfold span. now rewrite seq_app, map_app. Qed.

Lemma range_span n : range n = span 0 (Z.to_nat n).
Proof. reflexivity. Qed.

Section EarlyStopping.

Variable args : Args.
Variable env : Env.
Variable P : Z.
Hypothesis every_epoch : validate_every args = 1.
Hypothesis finite_patience : patience args = Some P.
Hypothesis no_raise : forall e c, raises env e c = None.

(** An epoch that improves saves the best model and resets the count. *)
Lemma epoch_body_improves e st :
  compare args (val_metric env e) (best_val_metric st) = true ->
  outcome (epoch_body args env e st)
  = Ret (Continue (mkLoopState (val_metric env e) 0))
  /\ trained_epochs (trace (epoch_body args env e st)) = [e].
Proof.
  intros Hc. unfold epoch_body, check_improvement, should_validate, py_mod,
    do_call, when.
  rewrite !no_raise, every_epoch, Hc, Z.mod_1_r.
  destruct (e =? 0), (e =? num_epochs args - 1), (log_wandb args),
    (should_copy args e), (save_val_imgs args); split; reflexivity.
Qed.

(** An epoch that does not improve counts one more; the loop goes on
    while the count is within the patience. *)
Lemma epoch_body_stalls e st :
  compare args (val_metric env e) (best_val_metric st) = false ->
  outcome (epoch_body args env e st)
  = Ret (if P <? epochs_without_improvement st + 1 then Break
         else Continue (mkLoopState (best_val_metric st)
                                    (epochs_without_improvement st + 1)))
  /\ trained_epochs (trace (epoch_body args env e st)) = [e].
Proof.
  intros Hc. unfold epoch_body, check_improvement, should_validate, py_mod,
    do_call, when.
  rewrite !no_raise, every_epoch, Hc, finite_patience, Z.mod_1_r.
  destruct (P <? epochs_without_improvement st + 1),
    (e =? 0), (e =? num_epochs args - 1), (log_wandb args),
    (should_copy args e), (save_val_imgs args); split; reflexivity.
Qed.

(** From a count [c], [P - c + 1] epochs without improvement end the
    loop, at the last of them. *)
Lemma fit_loop_countdown (m : nat) :
  forall (s k : nat) best c,
    c + Z.of_nat m = P ->
    (m < k)%nat ->
    (forall j, (j <= m)%nat ->
               compare args (val_metric env (Z.of_nat (s + j))) best = false) ->
    outcome (fit_loop args env (span s k) (mkLoopState best c)) = Ret tt /\
    trained_epochs (trace (fit_loop args env (span s k) (mkLoopState best c)))
    = span s (S m).
Proof.
  induction m as [|m IH]; intros s k best c Hc Hk Hstall.
  - destruct k as [|k]; [lia|]. rewrite span_S. cbn [fit_loop].
    destruct (epoch_body_stalls (Z.of_nat s) (mkLoopState best c)) as [Ho Ht].
    { cbn. specialize (Hstall 0%nat). rewrite Nat.add_0_r in Hstall.
      apply Hstall. lia. }
    cbn [epochs_without_improvement best_val_metric] in Ho.
    replace (P <? c + 1) with true in Ho by (symmetry; apply Z.ltb_lt; lia).
    destruct (epoch_body args env (Z.of_nat s) _) as [tb rb].
    cbn [outcome trace fst snd] in *. subst rb.
    cbn [bind ret outcome trace fst snd]. rewrite app_nil_r.
    split; [reflexivity|]. now rewrite Ht.
  - destruct k as [|k]; [lia|]. rewrite span_S. cbn [fit_loop].
    destruct (epoch_body_stalls (Z.of_nat s) (mkLoopState best c)) as [Ho Ht].
    { cbn. specialize (Hstall 0%nat). rewrite Nat.add_0_r in Hstall.
      apply Hstall. lia. }
    cbn [epochs_without_improvement best_val_metric] in Ho.
    replace (P <? c + 1) with false in Ho by (symmetry; apply Z.ltb_ge; lia).
    destruct (IH (S s) k best (c + 1)) as [Ho' Ht']; [lia|lia| |].
    { intros j Hj. specialize (Hstall (S j)).
      replace (S s + j)%nat with (s + S j)%nat by lia. apply Hstall. lia. }
    destruct (epoch_body args env (Z.of_nat s) _) as [tb rb].
    cbn [outcome trace fst snd] in Ho, Ht. subst rb.
    cbn [bind].
    destruct (fit_loop args env (span (S s) k) _) as [tl rl].
    cbn [outcome trace fst snd] in *. subst rl.
    split; [reflexivity|].
    rewrite trained_epochs_app, Ht, Ht'. now rewrite (span_S s (S m)).
Qed.

(** The passes of a run that gets to [e] are the first [e] epochs, and
    the loop goes on from there. *)
Lemma fit_loop_reaches e st :
  reaches args env e st ->
  0 <= e /\
  forall k, exists T,
    trained_epochs T = span 0 (Z.to_nat e) /\
    fit_loop args env (span 0 (Z.to_nat e + k)) (initial_state args)
    = (T ++ trace (fit_loop args env (span (Z.to_nat e) k) st),
       outcome (fit_loop args env (span (Z.to_nat e) k) st)).
Proof.
  induction 1 as [|e st st' Hr [He IH] Hb].
  - split; [lia|]. intros k. exists []. split; [reflexivity|].
    cbn [Z.to_nat Nat.add app]. now destruct (fit_loop _ _ _ _).
  - split; [lia|]. intros k.
    destruct (IH (S k)) as [T [HT Hloop]].
    replace (Z.to_nat (e + 1)) with (S (Z.to_nat e)) by lia.
    replace (S (Z.to_nat e) + k)%nat with (Z.to_nat e + S k)%nat by lia.
    rewrite Hloop, (span_S (Z.to_nat e) k), Z2Nat.id by lia. cbn [fit_loop].
    destruct (epoch_body args env e st) as [tb rb] eqn:Hbody.
    cbn [outcome snd] in Hb. subst rb.
    pose proof (epoch_body_returns_trained _ _ _ _ _ _ Hbody) as Htb.
    cbn [bind].
    destruct (fit_loop args env (span (S (Z.to_nat e)) k) st') as [tl rl].
    cbn [trace outcome fst snd].
    exists (T ++ tb). split.
    + rewrite trained_epochs_app, HT, Htb.
      replace (S (Z.to_nat e)) with (Z.to_nat e + 1)%nat by lia.
      rewrite span_app. cbn. now rewrite Z2Nat.id by lia.
    + now rewrite app_assoc.
Qed.

End EarlyStopping.

Lemma fit_of_loop_return args env t :
  fit_loop args env (range (num_epochs args)) (initial_state args)
  = (t, Ret tt) ->
  fit args env
  = (Print "Training has started" :: t ++ trace (teardown args), Ret tt).
Proof.
  intros H. unfold fit. rewrite H, teardown_eq. reflexivity.
Qed.

(** C1: in a run that validates at every epoch ([validate_every = 1]), with
    a patience [P >= 0] and collaborators that do not raise, if the run gets
    to epoch [e], the metric improves there, and at none of the [P + 1]
    epochs that follow does it improve on the value of epoch [e], then the
    epochs trained are exactly 0, ..., [e + P + 1]: the loop ends at epoch
    [e + P + 1], and [fit] goes through its teardown and returns normally. *)
Theorem early_stopping_at_last_improvement_plus_patience
        args env (P e : Z) (st : LoopState) :
  validate_every args = 1 ->
  patience args = Some P ->
  0 <= P ->
  (forall epoch c, raises env epoch c = None) ->
  reaches args env e st ->
  compare args (val_metric env e) (best_val_metric st) = true ->
  (forall k, 1 <= k <= P + 1 ->
             compare args (val_metric env (e + k)) (val_metric env e) = false) ->
  e + P + 1 < num_epochs args ->
  outcome (fit args env) = Ret tt /\
  trained_epochs (trace (fit args env)) = range (e + P + 2) /\
  exists t,
    trace (fit args env)
    = Print "Training has started" :: t ++ trace (teardown args).
Proof.
  intros Hev Hpat HP Hq Hreach Himp Hstall Hn.
  destruct (fit_loop_reaches args env e st Hreach) as [He Hsplit].
  destruct (Hsplit (S (Z.to_nat (num_epochs args - e - 1))))
    as [T [HT Hloop]].
  replace (Z.to_nat e + S (Z.to_nat (num_epochs args - e - 1)))%nat
    with (Z.to_nat (num_epochs args)) in Hloop by lia.
  rewrite <- range_span in Hloop.
  rewrite span_S, Z2Nat.id in Hloop by lia. cbn [fit_loop] in Hloop.
  destruct (epoch_body_improves args env Hev Hq e st Himp) as [Ho Ht].
  destruct (epoch_body args env e st) as [tb rb].
  cbn [outcome trace fst snd] in Ho, Ht. subst rb. cbn [bind] in Hloop.
  destruct (fit_loop_countdown args env P Hev Hpat Hq (Z.to_nat P)
              (S (Z.to_nat e)) (Z.to_nat (num_epochs args - e - 1))
              (val_metric env e) 0) as [Ho' Ht']; [lia|lia| |].
  { intros j Hj.
    replace (Z.of_nat (S (Z.to_nat e) + j)) with (e + (Z.of_nat j + 1)) by lia.
    apply Hstall. lia. }
  destruct (fit_loop args env (span (S (Z.to_nat e)) _) _) as [tl rl].
  cbn [outcome trace fst snd] in Ho', Ht', Hloop. subst rl.
  pose proof (fit_of_loop_return _ _ _ Hloop) as Hfit.
  split; [now rewrite Hfit|]. split.
  - rewrite fit_trained, Hloop. cbn [trace fst].
    rewrite !trained_epochs_app, HT, Ht, Ht', range_span.
    replace (Z.to_nat (e + P + 2))
      with (Z.to_nat e + (1 + S (Z.to_nat P)))%nat by lia.
    rewrite !span_app. cbn [Nat.add]. f_equal. f_equal.
    + cbn. now rewrite Z2Nat.id by lia.
    + f_equal. lia.
  - exists (T ++ tb ++ tl). now rewrite Hfit.
Qed.

Lemma early_stopping_witness :
  let args := example_args "adam" "cross_entropy" in
  let env := quiet (fun e => if e <=? 1 then Fin (inject_Z e) else Fin 0) in
  outcome (fit args env) = Ret tt /\
  trained_epochs (trace (fit args env)) = range (1 + 2 + 2) /\
  exists t,
    trace (fit args env)
    = Print "Training has started" :: t ++ trace (teardown args).
Proof.
  intros args env.
  apply (early_stopping_at_last_improvement_plus_patience
           args env 2 1 (mkLoopState (Fin 0) 0)).
  - reflexivity.
  - reflexivity.
  - lia.
  - reflexivity.
  - apply (reaches_next args env 0 (initial_state args)).
    + apply reaches_start.
    + reflexivity.
  - reflexivity.
  - intros k Hk.
    assert (Hcases : k = 1 \/ k = 2 \/ k = 3) by lia.
    destruct Hcases as [ -> | [ -> | -> ] ]; reflexivity.
  - cbn. lia.
Defined.

(** * Further properties of the code *)

Import MoreNotions DatasetFiles.

(** ** What the loop does and does not *)

(** Every effect of the loop is a call of the body of one of its epochs. *)
Lemma fit_loop_events args env l :
  forall st ev,
    In ev (trace (fit_loop args env l st)) ->
    exists e st', In e l /\ In ev (trace (epoch_body args env e st')).
Proof.
  induction l as [|e l IH]; intros st ev Hin; [destruct Hin|].
  cbn [fit_loop] in Hin. unfold bind in Hin.
  destruct (epoch_body args env e st) as [tb [[st'|]|x]] eqn:Hb.
  - destruct (fit_loop args env l st') as [tl rl] eqn:Hl.
    cbn [trace fst] in Hin. apply in_app_or in Hin. destruct Hin as [Hin|Hin].
    + exists e, st. split; [now left|]. now rewrite Hb.
    + destruct (IH st' ev) as [e' [st'' [He' Hev]]]; [now rewrite Hl|].
      exists e', st''. split; [now right|exact Hev].
  - cbn [trace fst ret] in Hin. rewrite app_nil_r in Hin.
    exists e, st. split; [now left|]. now rewrite Hb.
  - exists e, st. split; [now left|]. now rewrite Hb.
Qed.

Lemma fit_events args env ev :
  In ev (trace (fit args env)) ->
  ev = Print "Training has started" \/
  In ev (trace (fit_loop args env (range (num_epochs args))
                         (initial_state args))) \/
  In ev (trace (teardown args)).
Proof.
  unfold fit. destruct (fit_loop args env _ _) as [t [[]|x]];
    [|destruct x]; destruct (teardown args) as [td rd];
    cbn [bind emit try_except is_KeyboardInterrupt ret trace fst snd app];
    rewrite ?app_nil_r; intros [H|H]; auto;
    try (apply in_app_or in H; destruct H); auto.
Qed.

Lemma in_range e n : In e (range n) <-> 0 <= e < n.
Proof.
  unfold range. rewrite in_map_iff. split.
  - intros [k [Hk Hin]]. apply in_seq in Hin. lia.
  - intros H. exists (Z.to_nat e). split; [lia|]. apply in_seq. lia.
Qed.

(** The calls of a body belong to its epoch; [wandb.log] is among them only
    when [log_wandb] is set. *)
Lemma epoch_body_events args env e st ev :
  In ev (trace (epoch_body args env e st)) ->
  exists c, ev = Call e c /\ (c = WandbLog -> log_wandb args = true).
Proof.
  body_cases; cbn [In]; intros H;
    repeat (destruct H as [H|H];
            [subst ev; eexists; split; [reflexivity|];
             first [discriminate | reflexivity | intros _; assumption]|]);
    destruct H.
Qed.

(** X1: every call [fit] makes belongs to an epoch of [range(num_epochs)]. *)
Theorem fit_calls_within_range args env e c :
  In (Call e c) (trace (fit args env)) -> 0 <= e < num_epochs args.
Proof.
  intros H. destruct (fit_events _ _ _ H) as [H1|[H1|H1]].
  - discriminate.
  - destruct (fit_loop_events _ _ _ _ _ H1) as [e' [st' [He' Hev]]].
    destruct (epoch_body_events _ _ _ _ _ Hev) as [c' [Heq _]].
    inversion Heq; subst. now apply in_range.
  - rewrite teardown_eq in H1. cbn [trace fst] in H1.
    destruct (log_wandb args); cbn in H1; intuition discriminate.
Qed.

Lemma fit_calls_within_range_witness : 0 <= 3 < 10.
Proof.
  apply (fit_calls_within_range (example_args "adam" "cross_entropy")
                                (quiet (fun _ => Fin 1)) 3 SaveCheckpoint).
  vm_compute. repeat (first [now left | right]).
Defined.

(** X2: without [log_wandb] the run never talks to the tracking service:
    no [wandb.log] in any epoch and no [wandb.finish] at the end. *)
Theorem no_wandb_calls_unless_enabled args env :
  log_wandb args = false ->
  ~ In WandbFinish (trace (fit args env)) /\
  forall e, ~ In (Call e WandbLog) (trace (fit args env)).
Proof.
  intros Hw. split.
  - intros H. destruct (fit_events _ _ _ H) as [H1|[H1|H1]].
    + discriminate.
    + destruct (fit_loop_events _ _ _ _ _ H1) as [e' [st' [_ Hev]]].
      destruct (epoch_body_events _ _ _ _ _ Hev) as [c' [Heq _]]. discriminate.
    + rewrite teardown_eq, Hw in H1. cbn in H1. intuition discriminate.
  - intros e H. destruct (fit_events _ _ _ H) as [H1|[H1|H1]].
    + discriminate.
    + destruct (fit_loop_events _ _ _ _ _ H1) as [e' [st' [_ Hev]]].
      destruct (epoch_body_events _ _ _ _ _ Hev) as [c' [Heq Hc]].
      inversion Heq; subst. rewrite Hc in Hw by reflexivity. discriminate.
    + rewrite teardown_eq, Hw in H1. cbn in H1. intuition discriminate.
Qed.

Lemma no_wandb_calls_witness :
  ~ In WandbFinish
       (trace (fit (example_args "adam" "cross_entropy")
                   (quiet (fun _ => Fin 1)))) /\
  forall e, ~ In (Call e WandbLog)
                 (trace (fit (example_args "adam" "cross_entropy")
                             (quiet (fun _ => Fin 1)))).
Proof.
  apply (no_wandb_calls_unless_enabled (example_args "adam" "cross_entropy")).
  reflexivity.
Defined.

Lemma fit_of_loop_raise args env t x :
  fit_loop args env (range (num_epochs args)) (initial_state args)
  = (t, Raise x) ->
  x <> KeyboardInterrupt ->
  fit args env = (Print "Training has started" :: t, Raise x).
Proof.
  intros H Hki. unfold fit. rewrite H.
  destruct x; try reflexivity. now destruct Hki.
Qed.

Lemma fit_loop_only_calls args env l st ev :
  In ev (trace (fit_loop args env l st)) -> exists e c, ev = Call e c.
Proof.
  intros H. destruct (fit_loop_events _ _ _ _ _ H) as [e [st' [_ Hev]]].
  destruct (epoch_body_events _ _ _ _ _ Hev) as [c [Heq _]].
  now exists e, c.
Qed.

(** X3: an exception of the loop body other than [KeyboardInterrupt] leaves
    [fit] as it is, after the calls made so far: nothing of the teardown is
    done, neither [wandb.finish()] nor the final [config.yaml]. *)
Theorem other_exceptions_leave_fit_without_teardown args env x :
  outcome (fit_loop args env (range (num_epochs args)) (initial_state args))
  = Raise x ->
  x <> KeyboardInterrupt ->
  fit args env
  = (Print "Training has started"
       :: trace (fit_loop args env (range (num_epochs args))
                          (initial_state args)),
     Raise x) /\
  ~ In WriteConfig (trace (fit args env)) /\
  ~ In WandbFinish (trace (fit args env)).
Proof.
  intros Hx Hki.
  destruct (fit_loop args env _ _) as [t r] eqn:Hl.
  cbn [outcome snd] in Hx. subst r.
  rewrite (fit_of_loop_raise _ _ _ _ Hl Hki). cbn [trace fst].
  split; [reflexivity|].
  split; intros [H|H]; try discriminate;
    (assert (Hin : In _ (trace (fit_loop args env (range (num_epochs args))
                                        (initial_state args))))
       by (rewrite Hl; exact H);
     destruct (fit_loop_only_calls _ _ _ _ _ Hin) as [e [c Heq]];
     discriminate).
Qed.

(** A run in which saving the checkpoint of epoch 1 fails. *)
Lemma other_exceptions_witness :
  let args := example_args "adam" "cross_entropy" in
  let env := Train.mkEnv (fun e c => match c with
                             | SaveCheckpoint =>
                                 if e =? 1 then Some (OtherException "disk full")
                                 else None
                             | _ => None
                             end) (fun _ => Fin 1) in
  fit args env
  = (Print "Training has started"
       :: trace (fit_loop args env (range (num_epochs args))
                          (initial_state args)),
     Raise (OtherException "disk full")) /\
  ~ In WriteConfig (trace (fit args env)) /\
  ~ In WandbFinish (trace (fit args env)).
Proof.
  intros args env.
  apply (other_exceptions_leave_fit_without_teardown args env).
  - reflexivity.
  - discriminate.
Defined.

(** X4: with [num_epochs <= 0] the loop body is never entered; [fit] only
    starts, tears down and returns. *)
Theorem fit_without_epochs args env :
  num_epochs args <= 0 ->
  fit args env
  = (Print "Training has started" :: trace (teardown args), Ret tt).
Proof.
  intros Hn. unfold fit, range.
  replace (Z.to_nat (num_epochs args)) with 0%nat by lia.
  rewrite teardown_eq. reflexivity.
Qed.

Lemma fit_without_epochs_witness :
  fit (set_num_epochs 0 (example_args "adam" "cross_entropy"))
      (quiet (fun _ => NaN))
  = (Print "Training has started"
       :: trace (teardown (set_num_epochs 0
                             (example_args "adam" "cross_entropy"))), Ret tt).
Proof.
  apply (fit_without_epochs
           (set_num_epochs 0 (example_args "adam" "cross_entropy"))).
  cbn. lia.
Defined.

(** ** The body, epoch by epoch *)

Lemma should_copy_spec args e :
  should_copy args e = true <->
  copy_model_every args <> 0 /\ (copy_model_every args | e).
Proof.
  unfold should_copy. destruct (copy_model_every args =? 0) eqn:Hz.
  - split; [discriminate|]. intros [H _]. lia.
  - assert (Hc : copy_model_every args <> 0) by lia.
    rewrite Z.eqb_eq, (Z.mod_divide e _ Hc). tauto.
Qed.

(** X5: a pass through the body that completes saves the numbered copy
    [models/checkpoint_<epoch>.pt] exactly when [copy_model_every] is not 0
    and divides the epoch; with 0 no copy is ever made. *)
Theorem numbered_copy_every_k_epochs args env e st t c :
  epoch_body args env e st = (t, Ret c) ->
  (In (Call e SaveCopy) t <->
   copy_model_every args <> 0 /\ (copy_model_every args | e)).
Proof.
  intros H. rewrite <- should_copy_spec.
  revert H. body_cases; intros H; inversion H; subst; clear H;
    cbn [In]; intuition (try discriminate; try congruence).
Qed.

Lemma numbered_copy_witness :
  In (Call 0 SaveCopy)
     [Call 0 TrainOneEpoch; Call 0 ValidateOneEpoch; Call 0 LoggerEndEpoch;
      Call 0 SetPostfix; Call 0 ToCsvNan; Call 0 Savefig; Call 0 StateDict;
      Call 0 SaveCheckpoint; Call 0 SaveCopy; Call 0 SaveBestModel] <->
  copy_model_every (mkArgs 10 1 None "Dice DRIVE" true false 5 false false
                           "sgd" "cross_entropy" "/data" 8) <> 0 /\
  (copy_model_every (mkArgs 10 1 None "Dice DRIVE" true false 5 false false
                            "sgd" "cross_entropy" "/data" 8) | 0).
Proof.
  apply (numbered_copy_every_k_epochs
           (mkArgs 10 1 None "Dice DRIVE" true false 5 false false
                   "sgd" "cross_entropy" "/data" 8)
           (quiet (fun _ => Fin 1)) 0
           (initial_state (mkArgs 10 1 None "Dice DRIVE" true false 5 false
                                  false "sgd" "cross_entropy" "/data" 8))
           _ (Continue (mkLoopState (Fin 1) 0))).
  reflexivity.
Defined.

(** X6: an epoch that is not validated leaves the early-stopping state as
    it was and never ends the loop; it makes no validation call and saves
    neither validation images nor [best_model.pt]. *)
Theorem unvalidated_epoch_keeps_state args env e st t c :
  epoch_body args env e st = (t, Ret c) ->
  outcome (should_validate args e) = Ret false ->
  c = Continue st /\
  ~ In (Call e ValidateOneEpoch) t /\
  ~ In (Call e PredictAndSaveValImgs) t /\
  ~ In (Call e SaveBestModel) t.
Proof.
  intros H. revert H. body_cases; intros H Hv; inversion H; subst; clear H;
    try discriminate;
    cbn [In]; intuition (try discriminate; try congruence).
Qed.

Lemma unvalidated_epoch_witness :
  let args := mkArgs 10 4 (Some 0) "Dice DRIVE" true false 0 true false
                     "sgd" "cross_entropy" "/data" 8 in
  let st := mkLoopState (Fin 1) 0 in
  let t := trace (epoch_body args (quiet (fun _ => Fin 0)) 2 st) in
  Continue st = Continue st /\
  ~ In (Call 2 ValidateOneEpoch) t /\
  ~ In (Call 2 PredictAndSaveValImgs) t /\
  ~ In (Call 2 SaveBestModel) t.
Proof.
  intros args st t.
  apply (unvalidated_epoch_keeps_state args (quiet (fun _ => Fin 0)) 2 st t
                                       (Continue st)).
  - reflexivity.
  - reflexivity.
Defined.

(** What a pass that goes on to the next epoch did to the state. *)
Lemma epoch_body_continue args env e st t st' :
  epoch_body args env e st = (t, Ret (Continue st')) ->
  (outcome (should_validate args e) = Ret false /\ st' = st) \/
  (outcome (should_validate args e) = Ret true /\
   compare args (val_metric env e) (best_val_metric st) = true /\
   st' = mkLoopState (val_metric env e) 0) \/
  (outcome (should_validate args e) = Ret true /\
   compare args (val_metric env e) (best_val_metric st) = false /\
   st' = mkLoopState (best_val_metric st) (epochs_without_improvement st + 1) /\
   forall P, patience args = Some P -> epochs_without_improvement st + 1 <= P).
Proof.
  intros H. revert H. body_cases; intros H; inversion H; subst; clear H;
    first [ left; split; reflexivity
          | right; left; repeat split; (reflexivity || assumption)
          | right; right; repeat split; try (reflexivity || assumption);
            intros P' HP; first [discriminate | inversion HP; subst; lia] ].
Qed.

Lemma reaches_step args env e st st' :
  outcome (epoch_body args env e st) = Ret (Continue st') ->
  exists t, epoch_body args env e st = (t, Ret (Continue st')).
Proof.
  destruct (epoch_body args env e st) as [t r]. cbn. intros ->. now exists t.
Qed.

(** X7: at the start of every epoch the run gets to, the count of epochs
    without improvement is at least 0 and, under a patience [P >= 0], at
    most [P]. *)
Theorem epochs_without_improvement_bounded args env e st :
  reaches args env e st ->
  0 <= epochs_without_improvement st /\
  forall P, patience args = Some P -> 0 <= P ->
            epochs_without_improvement st <= P.
Proof.
  induction 1 as [|e st st' Hr [IH0 IHP] Hb].
  - split; [reflexivity|]. intros P _ HP. exact HP.
  - destruct (reaches_step _ _ _ _ _ Hb) as [t Ht].
    destruct (epoch_body_continue _ _ _ _ _ _ Ht)
      as [[_ ->]|[[_ [_ ->]]|[_ [_ [-> Hle]]]]]; cbn.
    + split; assumption.
    + split; [lia|]. intros P _ HP. exact HP.
    + split; [lia|]. intros P HP _. now apply Hle.
Qed.

Lemma epochs_without_improvement_witness :
  0 <= epochs_without_improvement (mkLoopState (Fin 1) 1) /\
  forall P, patience (example_args "adam" "cross_entropy") = Some P ->
            0 <= P -> epochs_without_improvement (mkLoopState (Fin 1) 1) <= P.
Proof.
  apply (epochs_without_improvement_bounded
           (example_args "adam" "cross_entropy") (quiet (fun _ => Fin 1)) 2).
  apply (reaches_next _ _ 1 (mkLoopState (Fin 1) 0)).
  - apply (reaches_next _ _ 0
             (initial_state (example_args "adam" "cross_entropy"))).
    + apply reaches_start.
    + reflexivity.
  - reflexivity.
Defined.

(** A value that does not beat [b] does not beat what beats [b]. *)
Lemma operator_gt_not_beaten v b b' :
  operator_gt v b = false -> operator_gt b' b = true ->
  operator_gt v b' = false.
Proof.
  destruct v as [| |p|], b as [| |q|], b' as [| |r|]; cbn;
    try reflexivity; try discriminate.
  rewrite !negb_false_iff, negb_true_iff. intros Hpq Hrq.
  apply Qle_bool_iff. apply Qle_bool_iff in Hpq.
  destruct (Qlt_le_dec q r) as [Hlt|Hle].
  - apply Qlt_le_weak. eapply Qle_lt_trans; eassumption.
  - apply Qle_bool_iff in Hle. congruence.
Qed.

Lemma operator_lt_not_beaten v b b' :
  operator_lt v b = false -> operator_lt b' b = true ->
  operator_lt v b' = false.
Proof.
  unfold operator_lt.
  destruct v as [| |p|], b as [| |q|], b' as [| |r|]; cbn;
    try reflexivity; try discriminate.
  rewrite !negb_false_iff, negb_true_iff. intros Hqp Hqr.
  apply Qle_bool_iff. apply Qle_bool_iff in Hqp.
  destruct (Qlt_le_dec r q) as [Hlt|Hle].
  - apply Qlt_le_weak. eapply Qlt_le_trans; eassumption.
  - apply Qle_bool_iff in Hle. congruence.
Qed.

Lemma compare_not_beaten args v b b' :
  compare args v b = false -> compare args b' b = true ->
  compare args v b' = false.
Proof.
  unfold compare. destruct (maximize_validation_metric args);
    [apply operator_gt_not_beaten | apply operator_lt_not_beaten].
Qed.

(** X8: the best value held by the loop is never beaten by the metric of an
    earlier validated epoch, and it is the initial infinity or the metric of
    one of those epochs. *)
Theorem best_val_metric_is_best_so_far args env e st :
  reaches args env e st ->
  (forall j, 0 <= j < e ->
             outcome (should_validate args j) = Ret true ->
             compare args (val_metric env j) (best_val_metric st) = false) /\
  (best_val_metric st = initial_best args \/
   exists j, 0 <= j < e /\ outcome (should_validate args j) = Ret true /\
             best_val_metric st = val_metric env j).
Proof.
  induction 1 as [|e st st' Hr [IHb IHo] Hb].
  - split; [intros j Hj; lia | now left].
  - assert (He : 0 <= e).
    { clear - Hr. induction Hr; lia. }
    destruct (reaches_step _ _ _ _ _ Hb) as [t Ht].
    destruct (epoch_body_continue _ _ _ _ _ _ Ht)
      as [[Hv ->]|[[Hv [Hc ->]]|[Hv [Hc [-> _]]]]]; cbn [best_val_metric].
    + split.
      * intros j Hj Hvj. assert (Hcase : j < e \/ j = e) by lia.
        destruct Hcase as [Hlt| ->]; [apply IHb; [lia|exact Hvj]|congruence].
      * destruct IHo as [Hi|[j [Hj [Hvj Hbest]]]]; [now left|right].
        exists j. split; [lia|]. split; assumption.
    + split.
      * intros j Hj Hvj. assert (Hcase : j < e \/ j = e) by lia.
        destruct Hcase as [Hlt| ->]; [|apply compare_strict].
        eapply compare_not_beaten; [apply IHb; [lia|exact Hvj]|exact Hc].
      * right. exists e. split; [lia|]. split; [exact Hv|reflexivity].
    + split.
      * intros j Hj Hvj. assert (Hcase : j < e \/ j = e) by lia.
        destruct Hcase as [Hlt| ->]; [apply IHb; [lia|exact Hvj]|exact Hc].
      * destruct IHo as [Hi|[j [Hj [Hvj Hbest]]]]; [now left|right].
        exists j. split; [lia|]. split; assumption.
Qed.

Lemma best_val_metric_witness :
  let args := example_args "adam" "cross_entropy" in
  let env := quiet (fun e => if e =? 0 then Fin 1 else Fin 0) in
  (forall j, 0 <= j < 2 ->
             outcome (should_validate args j) = Ret true ->
             compare args (val_metric env j) (Fin 1) = false) /\
  (Fin 1 = initial_best args \/
   exists j, 0 <= j < 2 /\ outcome (should_validate args j) = Ret true /\
             Fin 1 = val_metric env j).
Proof.
  intros args env.
  apply (best_val_metric_is_best_so_far args env 2 (mkLoopState (Fin 1) 1)).
  apply (reaches_next _ _ 1 (mkLoopState (Fin 1) 0)).
  - apply (reaches_next _ _ 0 (initial_state args)).
    + apply reaches_start.
    + reflexivity.
  - reflexivity.
Defined.

Lemma compare_initial args v :
  compare args v (initial_best args) = true <->
  v <> NaN /\ v <> initial_best args.
Proof.
  unfold compare, initial_best, operator_lt.
  destruct (maximize_validation_metric args), v as [| |q|]; cbn;
    intuition (try discriminate; try congruence).
Qed.

(** X9: the first epoch, which is always validated, writes [best_model.pt]
    unless its metric is NaN or the infinity the loop starts from. *)
Theorem first_epoch_saves_best_model args env t c :
  epoch_body args env 0 (initial_state args) = (t, Ret c) ->
  (In (Call 0 SaveBestModel) t <->
   val_metric env 0 <> NaN /\ val_metric env 0 <> initial_best args).
Proof.
  intros H. rewrite <- compare_initial.
  revert H. body_cases; intros H; inversion H; subst; clear H;
    cbn [In best_val_metric initial_state] in *;
    intuition (try discriminate; try congruence).
Qed.

Lemma first_epoch_saves_best_model_witness :
  let args := example_args "adam" "cross_entropy" in
  let env := quiet (fun _ => NaN) in
  In (Call 0 SaveBestModel)
     (trace (epoch_body args env 0 (initial_state args))) <->
  val_metric env 0 <> NaN /\ val_metric env 0 <> initial_best args.
Proof.
  intros args env.
  apply (first_epoch_saves_best_model args env _
           (Continue (mkLoopState NegInf 1))).
  reflexivity.
Defined.

(** ** Runs without patience, and a cadence of 0 *)

Lemma epoch_body_without_patience args env e st :
  patience args = None ->
  validate_every args <> 0 ->
  (forall epoch c, raises env epoch c = None) ->
  exists st',
    outcome (epoch_body args env e st) = Ret (Continue st') /\
    trained_epochs (trace (epoch_body args env e st)) = [e].
Proof.
  intros Hpat Hv Hq.
  body_cases;
    try match goal with
        | H : raises _ _ _ = Some _ |- _ => rewrite Hq in H; discriminate
        end;
    try lia; try congruence; eexists; split; reflexivity.
Qed.

Lemma fit_loop_without_patience args env l :
  patience args = None ->
  validate_every args <> 0 ->
  (forall epoch c, raises env epoch c = None) ->
  forall st,
    outcome (fit_loop args env l st) = Ret tt /\
    trained_epochs (trace (fit_loop args env l st)) = l.
Proof.
  intros Hpat Hv Hq. induction l as [|e l IH]; intros st; [split; reflexivity|].
  cbn [fit_loop].
  destruct (epoch_body_without_patience args env e st Hpat Hv Hq)
    as [st' [Ho Ht]].
  destruct (epoch_body args env e st) as [tb rb].
  cbn [outcome trace fst snd] in Ho, Ht. subst rb. cbn [bind].
  destruct (IH st') as [Ho' Ht'].
  destruct (fit_loop args env l st') as [tl rl].
  cbn [outcome trace fst snd] in *. subst rl.
  split; [reflexivity|]. now rewrite trained_epochs_app, Ht, Ht'.
Qed.

(** X10: with [patience = None] nothing stops the loop early: when no
    collaborator raises and [validate_every] is not 0, every epoch of
    [range(num_epochs)] is trained, in order, and [fit] returns normally. *)
Theorem no_patience_trains_every_epoch args env :
  patience args = None ->
  validate_every args <> 0 ->
  (forall epoch c, raises env epoch c = None) ->
  outcome (fit args env) = Ret tt /\
  trained_epochs (trace (fit args env)) = range (num_epochs args).
Proof.
  intros Hpat Hv Hq.
  destruct (fit_loop_without_patience args env (range (num_epochs args))
              Hpat Hv Hq (initial_state args)) as [Ho Ht].
  split; [|now rewrite fit_trained].
  destruct (fit_loop args env _ _) as [t r] eqn:Hl.
  cbn [outcome snd] in Ho. subst r.
  now rewrite (fit_of_loop_return _ _ _ Hl).
Qed.

Lemma no_patience_witness :
  let args := mkArgs 6 2 None "Dice DRIVE" false false 0 false false
                     "sgd" "cross_entropy" "/data" 8 in
  outcome (fit args (quiet (fun _ => NaN))) = Ret tt /\
  trained_epochs (trace (fit args (quiet (fun _ => NaN))))
  = range (num_epochs args).
Proof.
  intros args.
  apply (no_patience_trains_every_epoch args (quiet (fun _ => NaN))).
  - reflexivity.
  - discriminate.
  - reflexivity.
Defined.

(** X11: with [validate_every = 0] and at least three epochs, a run that gets
    to epoch 1 trains it and then stops on [ZeroDivisionError], raised by
    [epoch % args.validate_every]; the error leaves [fit], and the final
    configuration is not written. *)
Theorem validate_every_zero_raises_at_epoch_1 args env st :
  validate_every args = 0 ->
  2 < num_epochs args ->
  raises env 1 TrainOneEpoch = None ->
  reaches args env 1 st ->
  outcome (fit args env) = Raise ZeroDivisionError /\
  trained_epochs (trace (fit args env)) = [0; 1] /\
  ~ In WriteConfig (trace (fit args env)).
Proof.
  intros Hv Hn Htrain Hreach.
  destruct (fit_loop_reaches args env 1 st Hreach) as [_ Hsplit].
  destruct (Hsplit (S (Z.to_nat (num_epochs args - 2)))) as [T [HT Hloop]].
  replace (Z.to_nat 1 + S (Z.to_nat (num_epochs args - 2)))%nat
    with (Z.to_nat (num_epochs args)) in Hloop by lia.
  rewrite <- range_span in Hloop.
  change (Z.to_nat 1) with 1%nat in Hloop, HT.
  rewrite span_S in Hloop. cbn [fit_loop] in Hloop.
  assert (Hbody : epoch_body args env (Z.of_nat 1) st
                  = ([Call 1 TrainOneEpoch], Raise ZeroDivisionError)).
  { unfold epoch_body, do_call, should_validate, py_mod.
    change (Z.of_nat 1) with 1. rewrite Htrain, Hv.
    replace (1 =? num_epochs args - 1) with false
      by (symmetry; apply Z.eqb_neq; lia).
    reflexivity. }
  rewrite Hbody in Hloop. cbn [bind trace outcome fst snd] in Hloop.
  assert (Hfit : fit args env
                 = (Print "Training has started" :: T ++ [Call 1 TrainOneEpoch],
                    Raise ZeroDivisionError)).
  { apply fit_of_loop_raise; [exact Hloop|discriminate]. }
  split; [now rewrite Hfit|]. split.
  - rewrite fit_trained, Hloop. cbn [trace fst].
    now rewrite trained_epochs_app, HT.
  - rewrite Hfit. cbn [trace fst]. intros [H|H]; [discriminate|].
    assert (Hin : In WriteConfig
                     (trace (fit_loop args env (range (num_epochs args))
                                      (initial_state args))))
      by now rewrite Hloop.
    destruct (fit_loop_only_calls _ _ _ _ _ Hin) as [e [c Heq]]. discriminate.
Qed.

Lemma validate_every_zero_witness :
  let args := mkArgs 5 0 None "Dice DRIVE" true false 0 false false
                     "sgd" "cross_entropy" "/data" 8 in
  let env := quiet (fun _ => Fin 1) in
  outcome (fit args env) = Raise ZeroDivisionError /\
  trained_epochs (trace (fit args env)) = [0; 1] /\
  ~ In WriteConfig (trace (fit args env)).
Proof.
  intros args env.
  apply (validate_every_zero_raises_at_epoch_1 args env (mkLoopState (Fin 1) 0)).
  - reflexivity.
  - reflexivity.
  - reflexivity.
  - apply (reaches_next _ _ 0 (initial_state args)).
    + apply reaches_start.
    + reflexivity.
Defined.

(** ** Setting up, beyond the sanity check *)

(** What a [setup_training] that succeeds returns. *)
Lemma setup_training_success args pre de t args' te :
  setup_training args pre de = (t, Ret (args', te)) ->
  t = [] /\
  args' = args_after_setup args /\
  dl_valid te = make_dl_valids args pre (ds_valid de) /\
  select_optimizer (optimizer args) = Some (optim te) /\
  scheduler_total_iters te = num_epochs args.
Proof.
  unfold setup_training, attributed.
  set (dls := make_dl_valids args pre (ds_valid de)).
  rewrite (silent_eq (first_batch pre dls) (first_batch_trace pre dls)).
  rewrite (silent_eq (apply_perf_funcs pre 0 (perf_funcs de))
                     (apply_perf_funcs_trace pre (perf_funcs de) 0%nat)).
  destruct (outcome (first_batch pre dls)) as [b|x1]; cbn;
    [|destruct (is_Exception x1); cbn; discriminate].
  destruct (model_raises pre) as [x2|]; cbn;
    [destruct (is_Exception x2); cbn; discriminate|].
  destruct (outcome (apply_perf_funcs pre 0 (perf_funcs de))) as [[]|x3]; cbn;
    [|destruct (is_Exception x3); cbn; discriminate].
  destruct (select_optimizer (optimizer args)) as [o|]; cbn; [|discriminate].
  intros H. inversion H; subst. repeat split; reflexivity.
Qed.

(** X12: the learning-rate scheduler is built for the configured
    [num_epochs], also when [profile] then cuts the run to 2 epochs; apart
    from [num_epochs] under [profile], the set-up leaves the configuration
    as it was. *)
Theorem scheduler_keeps_configured_epochs args pre de t args' te :
  setup_training args pre de = (t, Ret (args', te)) ->
  scheduler_total_iters te = num_epochs args /\
  (profile args = false -> args' = args) /\
  (profile args = true -> args' = set_num_epochs 2 args) /\
  validate_every args' = validate_every args /\
  patience args' = patience args.
Proof.
  intros H.
  destruct (setup_training_success _ _ _ _ _ _ H) as [_ [-> [_ [_ Hs]]]].
  unfold args_after_setup. split; [exact Hs|].
  destruct (profile args); repeat split; try reflexivity; discriminate.
Qed.

Lemma scheduler_keeps_configured_epochs_witness :
  let args := mkArgs 100 1 None "Dice DRIVE" true false 0 false true
                     "sgd" "cross_entropy" "/data" 8 in
  let de := mkDatasetElements (fst (fst (get_datasets "/data")))
                              (snd (fst (get_datasets "/data"))) 2
                              [["Dice"]] in
  let te := snd (match outcome (setup_training args setup_ok de) with
                 | Ret r => r
                 | Raise _ => (args, mkTrainingElements [] SGD 0)
                 end) in
  scheduler_total_iters te = num_epochs args /\
  (profile args = false -> set_num_epochs 2 args = args) /\
  (profile args = true -> set_num_epochs 2 args = set_num_epochs 2 args) /\
  validate_every (set_num_epochs 2 args) = validate_every args /\
  patience (set_num_epochs 2 args) = patience args.
Proof.
  intros args de te.
  apply (scheduler_keeps_configured_epochs args setup_ok de []
           (set_num_epochs 2 args) te).
  reflexivity.
Defined.

Lemma make_dl_valids_keys args pre ds :
  keys (make_dl_valids args pre ds) = keys ds.
Proof.
  unfold keys, make_dl_valids. rewrite map_map.
  apply map_ext. now intros [name d].
Qed.

(** X13: a set-up that succeeds has built one validation loader per
    validation dataset, under the same names in the same order; none of
    them shuffles, and each has the batch size [bs_valid] and the length of
    its dataset. *)
Theorem validation_loaders_follow_datasets args pre de t args' te :
  setup_training args pre de = (t, Ret (args', te)) ->
  keys (dl_valid te) = keys (ds_valid de) /\
  Forall (fun kv => shuffle (snd kv) = false /\
                    batch_size (snd kv) = bs_valid args) (dl_valid te) /\
  forall name, option_map dl_len (dict_get (dl_valid te) name)
               = option_map (ds_len pre) (dict_get (ds_valid de) name).
Proof.
  intros H.
  destruct (setup_training_success _ _ _ _ _ _ H) as [_ [_ [-> _]]].
  split; [apply make_dl_valids_keys|]. split.
  - unfold make_dl_valids. apply Forall_forall. intros kv Hin.
    apply in_map_iff in Hin. destruct Hin as [[name d] [<- _]]. now split.
  - intros name. induction (ds_valid de) as [|[n d] l IH]; [reflexivity|].
    cbn. destruct (String.eqb name n); [reflexivity|exact IH].
Qed.

Lemma validation_loaders_witness :
  let args := example_args "adam" "cross_entropy" in
  let de := mkDatasetElements (fst (fst (get_datasets "/data")))
                              (snd (fst (get_datasets "/data"))) 2
                              [["Dice"]] in
  let te := mkTrainingElements (make_dl_valids args setup_ok (ds_valid de))
                               Adam 10 in
  keys (dl_valid te) = keys (ds_valid de) /\
  Forall (fun kv => shuffle (snd kv) = false /\
                    batch_size (snd kv) = bs_valid args) (dl_valid te) /\
  forall name, option_map dl_len (dict_get (dl_valid te) name)
               = option_map (ds_len setup_ok) (dict_get (ds_valid de) name).
Proof.
  intros args de te.
  apply (validation_loaders_follow_datasets args setup_ok de [] args te).
  reflexivity.
Defined.

(** X15: [except Exception] does not catch [KeyboardInterrupt]: an interrupt
    during the sanity check leaves the set-up as it is, with no message of
    a stage printed. *)
Theorem interrupt_in_sanity_check_is_not_attributed args pre de s :
  fails_at pre (make_dl_valids args pre (ds_valid de)) (perf_funcs de) s
           KeyboardInterrupt ->
  setup_training args pre de = ([], Raise KeyboardInterrupt).
Proof.
  intros Hfail. unfold setup_training, attributed.
  set (dls := make_dl_valids args pre (ds_valid de)) in *.
  rewrite (silent_eq (first_batch pre dls) (first_batch_trace pre dls)).
  rewrite (silent_eq (apply_perf_funcs pre 0 (perf_funcs de))
                     (apply_perf_funcs_trace pre (perf_funcs de) 0%nat)).
  destruct s; cbn [fails_at] in Hfail.
  - now rewrite Hfail.
  - destruct Hfail as [[b Hb] Hm]. now rewrite Hb, Hm.
  - destruct Hfail as [[b Hb] [Hm Hp]]. now rewrite Hb, Hm, Hp.
Qed.

Lemma interrupt_in_sanity_check_witness :
  setup_training (example_args "adam" "cross_entropy")
                 (mkSetup None None (fun _ => 20%nat) None
                          (Some KeyboardInterrupt) (fun _ => None))
                 (mkDatasetElements (fst (fst (get_datasets "/data")))
                                    (snd (fst (get_datasets "/data"))) 2
                                    [["Dice"]])
  = ([], Raise KeyboardInterrupt).
Proof.
  apply (interrupt_in_sanity_check_is_not_attributed _ _ _ Model).
  split; [eexists; reflexivity | reflexivity].
Defined.

(** ** The whole program *)

(** X16: a loss function name other than "cross_entropy" ends the program in
    [setup_dataset] with a [ValueError] that names it, whatever the rest of
    the configuration and of the collaborators; nothing later is set up. *)
Theorem unrecognized_loss_function_is_named args pre env :
  setup_experiment_raises pre = None ->
  loss_function args <> "cross_entropy" ->
  main args pre env
  = ([Print "Setting up the experiment..."],
     Raise (ValueError ("Loss function " ++ loss_function args
                        ++ " not recognized")%string)).
Proof.
  intros He Hl. apply String.eqb_neq in Hl.
  unfold main, init. rewrite He, (setup_dataset_unrecognized_loss args Hl).
  reflexivity.
Qed.

Lemma unrecognized_loss_function_witness :
  main (example_args "adam" "dice") setup_ok (quiet (fun _ => NaN))
  = ([Print "Setting up the experiment..."],
     Raise (ValueError "Loss function dice not recognized")).
Proof.
  apply (unrecognized_loss_function_is_named (example_args "adam" "dice")).
  - reflexivity.
  - discriminate.
Defined.

Lemma select_optimizer_none name :
  name <> "sgd" -> name <> "adam" -> name <> "adamw" ->
  select_optimizer name = None.
Proof.
  intros H1 H2 H3. unfold select_optimizer.
  apply String.eqb_neq in H1, H2, H3. now rewrite H1, H2, H3.
Qed.

(** X17: an optimizer name other than "sgd", "adam" and "adamw" (the
    comparison is exact, so "SGD" is one) passes the sanity check unnoticed
    and then stops the set-up on the unbound local [optim], with nothing
    printed. *)
Theorem unrecognized_optimizer_leaves_optim_unbound args pre de :
  sanity_passes pre (make_dl_valids args pre (ds_valid de)) (perf_funcs de) ->
  optimizer args <> "sgd" ->
  optimizer args <> "adam" ->
  optimizer args <> "adamw" ->
  setup_training args pre de = ([], Raise (UnboundLocalError "optim")).
Proof.
  intros [[b Hb] [Hm Hp]] H1 H2 H3.
  unfold setup_training, attributed.
  set (dls := make_dl_valids args pre (ds_valid de)) in *.
  rewrite (silent_eq (first_batch pre dls) (first_batch_trace pre dls)).
  rewrite (silent_eq (apply_perf_funcs pre 0 (perf_funcs de))
                     (apply_perf_funcs_trace pre (perf_funcs de) 0%nat)).
  rewrite Hb, Hm, Hp, (select_optimizer_none _ H1 H2 H3). reflexivity.
Qed.

Lemma unrecognized_optimizer_witness :
  setup_training (example_args "SGD" "cross_entropy") setup_ok
                 (mkDatasetElements (fst (fst (get_datasets "/data")))
                                    (snd (fst (get_datasets "/data"))) 2
                                    [["Dice"]])
  = ([], Raise (UnboundLocalError "optim")).
Proof.
  apply unrecognized_optimizer_leaves_optim_unbound.
  - split; [eexists; reflexivity|]. split; reflexivity.
  - discriminate.
  - discriminate.
  - discriminate.
Defined.

Lemma select_optimizer_some name :
  name = "sgd" \/ name = "adam" \/ name = "adamw" ->
  exists o, select_optimizer name = Some o.
Proof.
  intros [ -> | [ -> | -> ] ]; eexists; reflexivity.
Qed.

(** X18: when the collaborators of the set-up succeed, the names of the loss
    function and of the optimizer are recognized and the sanity check
    passes, the program prints its two set-up messages and then is [fit] on
    the configuration, with [num_epochs] 2 under [profile]. *)
Theorem main_runs_fit_after_setup args pre env de :
  setup_experiment_raises pre = None ->
  setup_dataset args = ([], Ret de) ->
  setup_model_raises pre = None ->
  sanity_passes pre (make_dl_valids args pre (ds_valid de)) (perf_funcs de) ->
  (optimizer args = "sgd" \/ optimizer args = "adam"
   \/ optimizer args = "adamw") ->
  main args pre env
  = (Print "Setting up the experiment..." :: Print "Done setting up."
       :: trace (fit (args_after_setup args) env),
     outcome (fit (args_after_setup args) env)).
Proof.
  intros He Hd Hm [[b Hb] [Hmod Hp]] Ho.
  destruct (select_optimizer_some _ Ho) as [o Hsel].
  assert (Hs : setup_training args pre de
               = ([], Ret (args_after_setup args,
                           mkTrainingElements
                             (make_dl_valids args pre (ds_valid de)) o
                             (num_epochs args)))).
  { unfold setup_training, attributed.
    set (dls := make_dl_valids args pre (ds_valid de)) in *.
    rewrite (silent_eq (first_batch pre dls) (first_batch_trace pre dls)).
    rewrite (silent_eq (apply_perf_funcs pre 0 (perf_funcs de))
                       (apply_perf_funcs_trace pre (perf_funcs de) 0%nat)).
    rewrite Hb, Hmod, Hp, Hsel. reflexivity. }
  unfold main, init. rewrite He, Hd, Hm.
  cbn -[setup_training fit]. rewrite Hs.
  cbn -[fit]. now destruct (fit (args_after_setup args) env).
Qed.

Lemma main_runs_fit_witness :
  let args := example_args "adamw" "cross_entropy" in
  let env := quiet (fun _ => Fin 1) in
  main args setup_ok env
  = (Print "Setting up the experiment..." :: Print "Done setting up."
       :: trace (fit (args_after_setup args) env),
     outcome (fit (args_after_setup args) env)).
Proof.
  intros args env.
  eapply (main_runs_fit_after_setup args setup_ok env).
  - reflexivity.
  - reflexivity.
  - reflexivity.
  - split; [eexists; reflexivity|]. split; reflexivity.
  - right. right. reflexivity.
Defined.

(** ** One validation pass, in general *)

Lemma for_each_events {E A} (l : list A) (body : A -> M E unit) ev :
  In ev (trace (for_each l body)) ->
  exists a, In a l /\ In ev (trace (body a)).
Proof.
  induction l as [|a l IH]; [intros []|].
  cbn [for_each]. unfold bind.
  destruct (body a) as [t1 [[]|x]] eqn:Hb.
  - destruct (for_each l body) as [t2 r2]. cbn [trace fst] in *.
    intros H. apply in_app_or in H. destruct H as [H|H].
    + exists a. split; [now left|]. now rewrite Hb.
    + destruct (IH H) as [a' [Ha' Hev]]. exists a'. split; [now right|exact Hev].
  - cbn [trace fst]. intros H. exists a. split; [now left|]. now rewrite Hb.
Qed.

Lemma range_length n : List.length (range (Z.of_nat n)) = n.
Proof. unfold range. now rewrite length_map, length_seq, Nat2Z.id. Qed.

Lemma logs_of_batch_only perf epoch i ds_name n :
  logs_only ds_name
    (for_each perf (fun pf =>
       for_each pf (fun name =>
         emit (LoggerLog epoch i (name ++ " " ++ ds_name)%string n)))).
Proof.
  apply for_each_logs_only. intros pf. apply for_each_logs_only.
  intros name. split; reflexivity.
Qed.

(** An iterator that ends before the progress bar does. *)
Lemma validate_batches_short perf epoch ds_name pbar :
  forall dl_iter,
    (List.length dl_iter < List.length pbar)%nat ->
    outcome (validate_batches perf epoch ds_name pbar dl_iter)
    = Raise StopIteration.
Proof.
  induction pbar as [|i pbar IH]; intros dl_iter Hlen; [cbn in Hlen; lia|].
  destruct dl_iter as [|b rest]; [reflexivity|].
  cbn in Hlen. cbn [validate_batches].
  match goal with
  | |- context [for_each perf ?f] => set (logs := for_each perf f)
  end.
  assert (Hl : outcome logs = Ret tt) by apply logs_of_batch_only.
  destruct logs as [tl rl]. cbn [outcome snd] in Hl. subst rl.
  specialize (IH rest ltac:(lia)).
  destruct (validate_batches perf epoch ds_name pbar rest) as [tr rr].
  cbn [outcome snd] in IH. subst rr. reflexivity.
Qed.

Lemma validate_batches_outcome perf epoch ds_name pbar dl_iter :
  outcome (validate_batches perf epoch ds_name pbar dl_iter) = Ret tt \/
  outcome (validate_batches perf epoch ds_name pbar dl_iter)
  = Raise StopIteration.
Proof.
  destruct (Nat.le_gt_cases (List.length pbar) (List.length dl_iter)) as [H|H].
  - left. now apply validate_batches_consumes.
  - right. now apply validate_batches_short.
Qed.

(** X19: a validation loader with fewer batches than there are validation
    datasets makes the validation pass raise [StopIteration]. *)
Theorem short_loader_stops_validation dl_valid perf epoch name dl :
  In (name, dl) dl_valid ->
  (List.length (iter_loader (fun l => l) dl) < List.length dl_valid)%nat ->
  outcome (validate_one_epoch dl_valid perf epoch) = Raise StopIteration.
Proof.
  intros Hin Hshort. unfold validate_one_epoch.
  assert (Hloop : forall pbar l,
             In (name, dl) l ->
             (List.length (iter_loader (fun l => l) dl)
              < List.length pbar)%nat ->
             outcome (for_each l (fun '(ds_name, dl0) =>
                        validate_batches perf epoch ds_name pbar
                          (iter_loader (fun l => l) dl0)))
             = Raise StopIteration).
  { intros pbar l. induction l as [|[n d] l IH]; intros Hl Hs; [destruct Hl|].
    cbn [for_each]. unfold bind.
    destruct (validate_batches_outcome perf epoch n pbar
                (iter_loader (fun l => l) d)) as [Ho|Ho];
      destruct (validate_batches perf epoch n pbar _) as [t1 r1] eqn:Hv;
      cbn [outcome snd] in Ho; subst r1; [|reflexivity].
    destruct Hl as [Heq|Hl].
    - inversion Heq; subst.
      pose proof (validate_batches_short perf epoch name pbar _ Hs) as Hr.
      rewrite Hv in Hr. discriminate.
    - specialize (IH Hl Hs).
      destruct (for_each l _) as [t2 r2]. cbn [outcome snd] in *. now subst r2. }
  specialize (Hloop (range (Z.of_nat (List.length dl_valid))) dl_valid Hin).
  rewrite range_length in Hloop. specialize (Hloop Hshort).
  unfold when. destruct (epoch =? 1); cbn [bind emit ret];
    destruct (for_each dl_valid _) as [t r]; cbn [outcome snd] in *;
    now subst r.
Qed.

Lemma short_loader_witness :
  outcome (validate_one_epoch
             [("VessShape", mkDataLoader 100 8 false);
              ("DRIVE", mkDataLoader 20 16 false);
              ("VessMAP", mkDataLoader 100 8 false)] [["Dice"]] 0)
  = Raise StopIteration.
Proof.
  apply (short_loader_stops_validation _ _ _ "DRIVE"
           (mkDataLoader 20 16 false)).
  - right. now left.
  - vm_compute. lia.
Defined.

Lemma forwarded_other_dataset perf epoch ds_name name pbar :
  name <> ds_name ->
  forall dl_iter,
    forwarded name (trace (validate_batches perf epoch ds_name pbar dl_iter))
    = [].
Proof.
  intros Hne. apply String.eqb_neq in Hne.
  induction pbar as [|i pbar IH]; intros dl_iter; [reflexivity|].
  destruct dl_iter as [|b rest]; [reflexivity|].
  cbn [validate_batches].
  match goal with
  | |- context [for_each perf ?f] => set (logs := for_each perf f)
  end.
  assert (Hlogs : forwarded name (trace logs) = []).
  { apply for_each_logs_only. intros pf. apply for_each_logs_only.
    intros nm. split; reflexivity. }
  specialize (IH rest).
  destruct logs as [tl [[]|xl]]; cbn [trace fst] in Hlogs.
  - destruct (validate_batches perf epoch ds_name pbar rest) as [tr rr].
    cbn [trace fst] in IH.
    unfold bind, emit. cbn [trace fst snd app].
    change (forwarded name (Forward ds_name i b :: ?t))
      with ((if String.eqb ds_name name then [b] else []) ++ forwarded name t).
    rewrite String.eqb_sym, Hne.
    change (forwarded name (LoggerLog ?e ?j ?n ?w :: ?t))
      with (forwarded name t).
    rewrite forwarded_app, Hlogs.
    change (forwarded name (ProfilerStep :: ?t)) with (forwarded name t).
    exact IH.
  - unfold bind, emit. cbn [trace fst snd app].
    change (forwarded name (Forward ds_name i b :: ?t))
      with ((if String.eqb ds_name name then [b] else []) ++ forwarded name t).
    rewrite String.eqb_sym, Hne.
    change (forwarded name (LoggerLog ?e ?j ?n ?w :: ?t))
      with (forwarded name t).
    exact Hlogs.
Qed.

(** X20: when the names of the validation datasets are distinct and every
    loader has at least as many batches as there are datasets, the pass
    completes, and for each dataset the model is given the first
    [len(self.dl_valid)] batches of its loader, in the loader's order, and
    no other. *)
Theorem validation_pass_takes_first_batches dl_valid perf epoch :
  NoDup (keys dl_valid) ->
  (forall name dl, In (name, dl) dl_valid ->
     (List.length dl_valid <= List.length (iter_loader (fun l => l) dl))%nat) ->
  outcome (validate_one_epoch dl_valid perf epoch) = Ret tt /\
  forall name dl, In (name, dl) dl_valid ->
    forwarded name (trace (validate_one_epoch dl_valid perf epoch))
    = firstn (List.length dl_valid) (iter_loader (fun l => l) dl).
Proof.
  intros Hnd Hlen. unfold validate_one_epoch.
  assert (Hloop : forall pbar l,
             NoDup (keys l) ->
             (forall name dl, In (name, dl) l ->
                (List.length pbar
                 <= List.length (iter_loader (fun l => l) dl))%nat) ->
             let m := for_each l (fun '(ds_name, dl0) =>
                        validate_batches perf epoch ds_name pbar
                          (iter_loader (fun l => l) dl0)) in
             outcome m = Ret tt /\
             (forall name, ~ In name (keys l) -> forwarded name (trace m) = []) /\
             forall name dl, In (name, dl) l ->
               forwarded name (trace m)
               = firstn (List.length pbar) (iter_loader (fun l => l) dl)).
  { intros pbar l. induction l as [|[n d] l IH]; intros Hn Hl.
    { cbn. split; [reflexivity|]. split; [intros; reflexivity|].
      intros name dl []. }
    cbn [keys map fst] in Hn. inversion Hn as [|? ? Hnotin Hn']; subst.
    destruct IH as [IHo [IHout IHin]];
      [exact Hn' | intros name dl Hin; apply (Hl name dl); now right|].
    destruct (validate_batches_consumes perf epoch n pbar
                (iter_loader (fun l => l) d)) as [Ho Hf];
      [apply (Hl n d); now left|].
    cbn [for_each]. cbv zeta in *.
    destruct (validate_batches perf epoch n pbar _) as [t1 r1] eqn:Hv.
    destruct (for_each l _) as [t2 r2].
    cbn [outcome trace fst snd] in *. subst r1 r2.
    unfold bind. cbn [trace outcome fst snd]. split; [reflexivity|]. split.
    - intros name Hname. rewrite forwarded_app.
      rewrite IHout by (intros H; apply Hname; now right).
      assert (Hne : name <> n) by (intros ->; apply Hname; now left).
      pose proof (forwarded_other_dataset perf epoch n name pbar Hne
                    (iter_loader (fun l => l) d)) as H0.
      rewrite Hv in H0. cbn [trace fst] in H0. now rewrite H0.
    - intros name dl [Heq|Hin].
      + inversion Heq; subst. rewrite forwarded_app, Hf.
        rewrite IHout by exact Hnotin. apply app_nil_r.
      + assert (Hne : name <> n).
        { intros ->. apply Hnotin. unfold keys.
          apply in_map_iff. now exists (n, dl). }
        pose proof (forwarded_other_dataset perf epoch n name pbar Hne
                      (iter_loader (fun l => l) d)) as H0.
        rewrite Hv in H0. cbn [trace fst] in H0.
        rewrite forwarded_app, H0. cbn [app]. now apply IHin. }
  destruct (Hloop (range (Z.of_nat (List.length dl_valid))) dl_valid Hnd)
    as [Ho [_ Hin]].
  { intros name dl H. rewrite range_length. exact (Hlen name dl H). }
  cbv zeta in *.
  destruct (for_each dl_valid _) as [t r]. cbn [outcome trace fst snd] in *.
  subst r. unfold when.
  destruct (epoch =? 1); cbn [bind emit ret trace outcome fst snd app];
    (split; [reflexivity|]); intros name dl H;
    specialize (Hin name dl H); rewrite range_length in Hin; exact Hin.
Qed.

Lemma validation_pass_witness :
  outcome (validate_one_epoch loaders_100_20 [["Dice"]] 1) = Ret tt /\
  forall name dl, In (name, dl) loaders_100_20 ->
    forwarded name (trace (validate_one_epoch loaders_100_20 [["Dice"]] 1))
    = firstn (List.length loaders_100_20) (iter_loader (fun l => l) dl).
Proof.
  apply validation_pass_takes_first_batches.
  - repeat constructor; cbn; intuition discriminate.
  - intros name dl [H|[H|[H|[]]]]; inversion H; subst; vm_compute; lia.
Defined.

Lemma bind_events {E A B} (m : M E A) (k : A -> M E B) ev :
  In ev (trace (bind m k)) ->
  In ev (trace m) \/ exists a, outcome m = Ret a /\ In ev (trace (k a)).
Proof.
  destruct m as [t1 [a|x]]; cbn [bind].
  - destruct (k a) as [t2 r2] eqn:Hk. cbn [trace outcome fst snd].
    intros H. apply in_app_or in H. destruct H as [H|H]; [now left|right].
    exists a. split; [reflexivity|]. now rewrite Hk.
  - intros H. now left.
Qed.

Lemma validate_batches_logs perf epoch ds_name pbar :
  forall dl_iter ep i name w,
    In (LoggerLog ep i name w)
       (trace (validate_batches perf epoch ds_name pbar dl_iter)) ->
    ep = epoch /\ In i pbar /\
    exists p, name = (p ++ " " ++ ds_name)%string /\
              (p = "Val loss" \/ exists pf, In pf perf /\ In p pf).
Proof.
  induction pbar as [|j pbar IH]; intros dl_iter ep i name w Hin;
    [destruct Hin|].
  destruct dl_iter as [|b rest]; [destruct Hin|].
  cbn [validate_batches] in Hin.
  apply bind_events in Hin. destruct Hin as [[Hin|[]]|[_ [_ Hin]]];
    [discriminate|].
  apply bind_events in Hin. destruct Hin as [[Hin|[]]|[_ [_ Hin]]].
  { inversion Hin; subst. split; [reflexivity|]. split; [now left|].
    exists "Val loss". split; [reflexivity|now left]. }
  apply bind_events in Hin. destruct Hin as [Hin|[_ [_ Hin]]].
  { apply for_each_events in Hin. destruct Hin as [pf [Hpf Hin]].
    apply for_each_events in Hin. destruct Hin as [p [Hp [Hin|[]]]].
    inversion Hin; subst. split; [reflexivity|]. split; [now left|].
    exists p. split; [reflexivity|]. right. now exists pf. }
  apply bind_events in Hin. destruct Hin as [[Hin|[]]|[_ [_ Hin]]];
    [discriminate|].
  destruct (IH rest ep i name w Hin) as [He [Hi Hp]].
  split; [exact He|]. split; [now right|exact Hp].
Qed.

(** X21: whatever a validation pass logs, it logs for its own epoch and under
    a name that ends with a space and the name of a validation dataset:
    "Val loss <dataset>" for the loss, "<metric> <dataset>" for a result of
    a performance function. *)
Theorem validation_logs_carry_dataset_name dl_valid perf epoch ep i name w :
  In (LoggerLog ep i name w) (trace (validate_one_epoch dl_valid perf epoch)) ->
  ep = epoch /\
  0 <= i < Z.of_nat (List.length dl_valid) /\
  exists ds p,
    In ds (keys dl_valid) /\
    name = (p ++ " " ++ ds)%string /\
    (p = "Val loss" \/ exists pf, In pf perf /\ In p pf).
Proof.
  unfold validate_one_epoch. intros Hin.
  apply bind_events in Hin. destruct Hin as [Hin|[_ [_ Hin]]].
  { unfold when in Hin. destruct (epoch =? 1); cbn in Hin;
      intuition discriminate. }
  apply for_each_events in Hin. destruct Hin as [[ds dl] [Hds Hin]].
  destruct (validate_batches_logs _ _ _ _ _ _ _ _ _ Hin) as [He [Hi [p [Hn Hp]]]].
  split; [exact He|]. split; [now apply in_range in Hi|].
  exists ds, p. split; [|split; assumption].
  unfold keys. apply in_map_iff. now exists (ds, dl).
Qed.

Lemma validation_logs_witness :
  0 = 0 /\
  0 <= 1 < Z.of_nat (List.length loaders_100_20) /\
  exists ds p,
    In ds (keys loaders_100_20) /\
    "Dice DRIVE" = (p ++ " " ++ ds)%string /\
    (p = "Val loss" \/ exists pf, In pf [["Dice"]] /\ In p pf).
Proof.
  apply (validation_logs_carry_dataset_name loaders_100_20 [["Dice"]] 0
                                            0 1 "Dice DRIVE" 8).
  vm_compute. repeat (first [now left | right]).
Defined.

(** ** File names and labels *)

Lemma string_append_empty s : (s ++ "")%string = s.
Proof. induction s as [|c s IH]; [reflexivity|]. cbn. now rewrite IH. Qed.

Lemma strip_prefix_length p :
  forall s rest, strip_prefix p s = Some rest ->
                 String.length s = (String.length p + String.length rest)%nat.
Proof.
  induction p as [|a p IH]; intros s rest H.
  - cbn in H. now inversion H.
  - destruct s as [|b s]; [discriminate|]. cbn in H.
    destruct (Ascii.eqb a b); [|discriminate].
    cbn. now rewrite (IH s rest H).
Qed.

(** Enough fuel is as good as more. *)
Lemma replace_fuel_enough old new :
  old <> EmptyString ->
  forall f1 f2 s,
    (String.length s < f1)%nat -> (String.length s < f2)%nat ->
    replace_fuel f1 old new s = replace_fuel f2 old new s.
Proof.
  intros Hold. induction f1 as [|f1 IH]; intros f2 s H1 H2; [lia|].
  destruct f2 as [|f2]; [lia|]. cbn [replace_fuel].
  destruct (strip_prefix old s) as [rest|] eqn:Hp.
  - apply strip_prefix_length in Hp.
    destruct old as [|a old]; [now destruct Hold|]. cbn in Hp.
    f_equal. apply IH; lia.
  - destruct s as [|c s]; [reflexivity|]. cbn in H1, H2.
    f_equal. apply IH; lia.
Qed.

Lemma str_replace_cons old new c s :
  old <> EmptyString ->
  strip_prefix old (String c s) = None ->
  str_replace old new (String c s) = String c (str_replace old new s).
Proof.
  intros Hold Hp. unfold str_replace. cbn [String.length replace_fuel].
  rewrite Hp. reflexivity.
Qed.

Lemma str_replace_match old new s rest :
  old <> EmptyString ->
  strip_prefix old s = Some rest ->
  str_replace old new s = (new ++ str_replace old new rest)%string.
Proof.
  intros Hold Hp. unfold str_replace.
  set (f2 := S (String.length rest)). cbn [replace_fuel]. rewrite Hp.
  f_equal. pose proof (strip_prefix_length _ _ _ Hp) as Hlen.
  destruct old as [|a old]; [now destruct Hold|]. cbn in Hlen.
  subst f2. apply replace_fuel_enough; [discriminate|lia|lia].
Qed.

Lemma name_to_label_map_dot_free stem rest :
  no_dot stem = true ->
  name_to_label_map (stem ++ rest) = (stem ++ name_to_label_map rest)%string.
Proof.
  unfold name_to_label_map. induction stem as [|c stem IH]; intros Hd.
  - reflexivity.
  - cbn in Hd. apply andb_true_iff in Hd. destruct Hd as [Hc Hd].
    cbn [String.append]. rewrite str_replace_cons; [|discriminate|].
    + now rewrite IH.
    + cbn. apply negb_true_iff in Hc. now rewrite Hc.
Qed.

(** X22: [name_to_label_map] rewrites every ".tiff" of the path, not only the
    extension: for parts without a dot, "<dir>.tiff<file>.tiff" becomes
    "<dir>.png<file>.png"; in particular "<stem>.tiff" becomes "<stem>.png",
    and a path without a dot is left as it is. *)
Theorem name_to_label_map_replaces_every_tiff (dir file : string) :
  no_dot dir = true ->
  no_dot file = true ->
  name_to_label_map (dir ++ ".tiff" ++ file ++ ".tiff")
  = (dir ++ ".png" ++ file ++ ".png")%string /\
  name_to_label_map (file ++ ".tiff") = (file ++ ".png")%string /\
  name_to_label_map file = file.
Proof.
  intros Hd Hf.
  assert (Htiff : forall rest, name_to_label_map (".tiff" ++ rest)
                               = (".png" ++ name_to_label_map rest)%string).
  { intros rest. unfold name_to_label_map.
    now rewrite (str_replace_match ".tiff" ".png" _ rest). }
  assert (Hempty : name_to_label_map "" = "") by reflexivity.
  assert (Hfile : name_to_label_map (file ++ ".tiff") = (file ++ ".png")%string).
  { rewrite (name_to_label_map_dot_free file _ Hf).
    change ".tiff" with (".tiff" ++ "")%string. now rewrite Htiff, Hempty. }
  split; [|split; [exact Hfile|]].
  - rewrite (name_to_label_map_dot_free dir _ Hd), Htiff. now rewrite Hfile.
  - rewrite <- (string_append_empty file) at 1.
    rewrite (name_to_label_map_dot_free file "" Hf), Hempty.
    apply string_append_empty.
Qed.

Lemma name_to_label_map_witness :
  name_to_label_map ("/data/scans" ++ ".tiff" ++ "/img_01" ++ ".tiff")
  = ("/data/scans" ++ ".png" ++ "/img_01" ++ ".png")%string /\
  name_to_label_map ("/img_01" ++ ".tiff") = ("/img_01" ++ ".png")%string /\
  name_to_label_map "/img_01" = "/img_01".
Proof.
  apply name_to_label_map_replaces_every_tiff; reflexivity.
Defined.

(** X23: on an 8-bit label image, [label_opener] gives class 1 to the pixels
    of value 255 and class 0 to every other pixel, 254 included. *)
Theorem label_opener_is_one_only_at_255 (pixels : list Z) :
  Forall (fun p => 0 <= p <= 255) pixels ->
  Forall2 (fun p l => (l = 0 \/ l = 1) /\ (l = 1 <-> p = 255))
          pixels (label_opener pixels).
Proof.
  unfold label_opener. induction 1 as [|p pixels Hp _ IH]; [constructor|].
  cbn [map]. constructor; [|exact IH].
  assert (Hcase : p = 255 \/ p < 255) by lia.
  destruct Hcase as [->|Hlt].
  - change (255 / 255) with 1. split; [now right|tauto].
  - rewrite Z.div_small by lia. split; [now left|lia].
Qed.

Lemma label_opener_witness :
  Forall2 (fun p l => (l = 0 \/ l = 1) /\ (l = 1 <-> p = 255))
          [0; 128; 254; 255] (label_opener [0; 128; 254; 255]).
Proof.
  apply label_opener_is_one_only_at_255.
  repeat constructor; discriminate.
Defined.

(** ** Interruption, call by call *)






(** An interrupt between the two: [log.csv] is of epoch 1, [checkpoint.pt]
    still of epoch 0. *)
Example interrupt_between_log_and_checkpoint :
  let run := fit (example_args "adam" "cross_entropy")
                 interrupted_at_state_dict in
  outcome run = Ret tt /\
  In (Call 1 ToCsvNan) (trace run) /\
  In (Call 0 SaveCheckpoint) (trace run) /\
  ~ In (Call 1 SaveCheckpoint) (trace run).
Proof.
  vm_compute. split; [reflexivity|]. split; [|split].
  - repeat (first [now left | right]).
  - repeat (first [now left | right]).
  - intros H. repeat (destruct H as [H|H]; [discriminate H|]). exact H.
Qed.

(** ** Validation images *)

Import ValImgs.

Lemma scale_prediction_value (K c : Z) :
  2 <= K -> 0 <= c <= K - 1 ->
  scale_prediction K c = 255 * c / (K - 1) /\
  0 <= 255 * c / (K - 1) <= 255.
Proof.
  intros HK Hc. unfold scale_prediction, astype_uint8.
  destruct (K - 1) as [|p|p] eqn:Hp; try lia.
  assert (Hle : 0 <= 255 * c / Z.pos p <= 255).
  { split; [apply Z.div_pos; lia|].
    apply Z.div_le_upper_bound; [lia|]. nia. }
  split; [|exact Hle].
  cbn [Qdiv Qinv Qmult inject_Z Qnum Qden].
  rewrite Z.mul_1_r, Pos.mul_1_l.
  rewrite Z.quot_div_nonneg by lia. apply Z.mod_small. lia.
Qed.

(** X24: with at least two classes and predicted classes in
    [0, num_classes - 1], every image that [predict_and_save_val_imgs] saves
    goes to the path of a validation dataset and of an index of
    [img_indices], and its pixels are the classes scaled to
    [255*c/(num_classes-1)], rounded down: within 0..255, with class 0 at 0
    and the last class at 255. *)
Theorem saved_validation_images_scale_classes
        env ds_valid K epoch img_indices run_path path pixels :
  2 <= K ->
  (forall name idx, Forall (fun c => 0 <= c <= K - 1) (argmax env name idx)) ->
  In (Save path pixels)
     (trace (predict_and_save_val_imgs env ds_valid K epoch img_indices
                                       run_path)) ->
  (exists name img_idx,
      In name ds_valid /\ In img_idx img_indices /\
      path = image_path run_path name img_idx epoch /\
      pixels = map (fun c => 255 * c / (K - 1)) (argmax env name img_idx)) /\
  Forall (fun p => 0 <= p <= 255) pixels /\
  scale_prediction K 0 = 0 /\ scale_prediction K (K - 1) = 255.
Proof.
  intros HK Hcls Hin. unfold predict_and_save_val_imgs in Hin.
  apply for_each_events in Hin. destruct Hin as [name [Hname Hin]].
  apply for_each_events in Hin. destruct Hin as [idx [Hidx Hin]].
  destruct (getitem_raises env name idx); [destruct Hin|].
  destruct Hin as [Hin|[]]. inversion Hin; subst; clear Hin.
  assert (Hmap : map (scale_prediction K) (argmax env name idx)
                 = map (fun c => 255 * c / (K - 1)) (argmax env name idx)).
  { apply map_ext_in. intros c Hc.
    apply scale_prediction_value; [exact HK|].
    exact (proj1 (Forall_forall _ _) (Hcls name idx) c Hc). }
  split; [|split; [|split]].
  - exists name, idx. repeat split; assumption.
  - rewrite Hmap. apply Forall_forall. intros p Hp.
    apply in_map_iff in Hp. destruct Hp as [c [<- Hc]].
    apply (scale_prediction_value K c HK).
    exact (proj1 (Forall_forall _ _) (Hcls name idx) c Hc).
  - destruct (scale_prediction_value K 0 HK) as [-> _]; [lia|].
    now rewrite Z.mul_0_r.
  - destruct (scale_prediction_value K (K - 1) HK) as [-> _]; [lia|].
    apply Z.div_mul. lia.
Qed.

Lemma saved_validation_images_witness :
  let env := ValImgs.mkEnv (fun _ _ => None) (fun _ _ => [0; 1; 1; 0]) in
  (exists name img_idx,
      In name ["VessShape"; "DRIVE"] /\ In img_idx [0; 3] /\
      image_path ["run"] "DRIVE" 3 7 = image_path ["run"] name img_idx 7 /\
      [0; 255; 255; 0]
      = map (fun c => 255 * c / (2 - 1)) (argmax env name img_idx)) /\
  Forall (fun p => 0 <= p <= 255) [0; 255; 255; 0] /\
  scale_prediction 2 0 = 0 /\ scale_prediction 2 (2 - 1) = 255.
Proof.
  intros env.
  apply (saved_validation_images_scale_classes
           env ["VessShape"; "DRIVE"] 2 7 [0; 3] ["run"]).
  - lia.
  - intros name idx. repeat constructor; discriminate.
  - vm_compute. repeat (first [now left | right]).
Defined.

Lemma string_length_append s t :
  String.length (s ++ t)%string = (String.length s + String.length t)%nat.
Proof. induction s as [|c s IH]; [reflexivity|]. cbn. now rewrite IH. Qed.

Lemma string_append_inv_head s t1 t2 :
  (s ++ t1)%string = (s ++ t2)%string -> t1 = t2.
Proof.
  induction s as [|c s IH]; [trivial|]. cbn. intros H. inversion H. auto.
Qed.

Lemma string_append_inv_tail t :
  forall s1 s2, (s1 ++ t)%string = (s2 ++ t)%string -> s1 = s2.
Proof.
  induction s1 as [|c s1 IH]; intros [|d s2] H.
  - reflexivity.
  - apply (f_equal String.length) in H. cbn in H.
    rewrite string_length_append in H. lia.
  - apply (f_equal String.length) in H. cbn in H.
    rewrite string_length_append in H. lia.
  - cbn in H. inversion H. f_equal. now apply IH.
Qed.

Lemma str_injective z1 z2 : str z1 = str z2 -> z1 = z2.
Proof.
  unfold str. intros H.
  apply (f_equal DecimalString.NilEmpty.int_of_string) in H.
  rewrite !DecimalString.NilEmpty.isi in H. inversion H as [Hint].
  rewrite <- (DecimalZ.of_to z1), <- (DecimalZ.of_to z2). now rewrite Hint.
Qed.

(** X25: for one dataset, the images of different indices and of different
    epochs are saved to different files: a validated epoch never overwrites
    the images of an earlier one. *)
Theorem image_path_separates_indices_and_epochs
        run_path name (i1 i2 e1 e2 : Z) :
  image_path run_path name i1 e1 = image_path run_path name i2 e2 ->
  i1 = i2 /\ e1 = e2.
Proof.
  unfold image_path, join. intros H.
  apply app_inj_tail in H. destruct H as [H He].
  apply app_inj_tail in H. destruct H as [_ Hi].
  split.
  - apply string_append_inv_head in Hi. now apply str_injective.
  - apply string_append_inv_head in He.
    apply string_append_inv_head in He.
    apply string_append_inv_tail in He. now apply str_injective.
Qed.

Lemma image_path_witness : 3 = 3 /\ 7 = 7.
Proof.
  apply (image_path_separates_indices_and_epochs ["run"] "DRIVE" 3 3 7 7).
  reflexivity.
Defined.

(** ** Order of the epochs and of what an epoch persists *)

(** X26: whatever the collaborators do, the epochs trained by [fit] are
    0, 1, 2, ... in order and without a gap: an initial part of
    [range(num_epochs)]. *)
Theorem fit_trains_initial_epochs args env :
  exists rest,
    trained_epochs (trace (fit args env)) ++ rest = range (num_epochs args).
Proof.
  rewrite fit_trained. apply fit_loop_trained_prefix.
Qed.

(** X27: in every pass through the body, interrupted or not, what is
    persisted follows the order of the source: [checkpoint.pt] is written
    only after the training pass, [log.csv] and [plots.png] of the epoch,
    and [best_model.pt] only after [checkpoint.pt] and the validation pass
    of the epoch. *)
Theorem persisted_files_follow_body_order args env e st :
  let t := trace (epoch_body args env e st) in
  (In (Call e SaveCheckpoint) t ->
   In (Call e TrainOneEpoch) t /\ In (Call e ToCsvNan) t /\
   In (Call e Savefig) t) /\
  (In (Call e SaveBestModel) t ->
   In (Call e SaveCheckpoint) t /\ In (Call e ValidateOneEpoch) t).
Proof.
  cbv zeta. body_cases; cbn [In]; intuition (try discriminate; auto).
Qed.
